(** * Adminis Locuinte API client: a shallow embedding of [api.py]

    The client logs in to the portal with a cookie handshake, reads the
    location identifiers out of the dashboard markup, and polls three JSON
    endpoints per location.  This file embeds [AdminisLocuinteAPI] from
    [custom_components/adminislocuinte/api.py]:

    - Python strings are [string]; a character outside ASCII is carried as
      its UTF-8 bytes, so [\d] is an ASCII digit and [strip] removes ASCII
      white space;
    - dictionaries keyed by strings are [gmap string _];
    - the methods run in a state-and-exception monad over the fields of the
      object, which also records the HTTP calls that were issued;
    - the portal is a record of answers, one per call the client can make;
    - Python floats are the binary64 numbers of [SpecFloat]; [float()] on a
      string, the decimal parser of the runtime, is a parameter of the
      methods that use it.

    The claims of the specification are numbered C1 to C10; the theorem of
    each claim carries its number. *)

From Stdlib Require Import ZArith List String Ascii SpecFloat.
From stdpp Require Import gmap strings list.

Set Warnings "-register-all,-clear-no-such-hyp".

Open Scope Z_scope.
Open Scope string_scope.

(** ** Python strings *)

Module PyStr.

Definition dquote : ascii := "034"%char.

(** [s[n:]] and [s[:n]]. *)
Fixpoint drop (n : nat) (s : string) : string :=
  match n, s with
  | O, _ => s
  | S _, EmptyString => EmptyString
  | S k, String _ s' => drop k s'
  end.

Fixpoint take (n : nat) (s : string) : string :=
  match n, s with
  | O, _ => EmptyString
  | S _, EmptyString => EmptyString
  | S k, String c s' => String c (take k s')
  end.

(** [s.startswith(p)]. *)
Definition startswith (p s : string) : bool := String.prefix p s.

(** [sub in s]. *)
Fixpoint contains (sub s : string) : bool :=
  startswith sub s ||
  match s with
  | EmptyString => false
  | String _ s' => contains sub s'
  end.

(** [s.split(sep)] for a separator that is not empty: the separator is
    searched from the left, occurrences do not overlap.  [skip] counts the
    characters of a separator that was just found and is still to be
    passed over.  The first component is the segment being read, the
    second the segments after it. *)
Fixpoint split_from (sep : string) (skip : nat) (s : string)
  : string * list string :=
  match s with
  | EmptyString => (EmptyString, [])
  | String c s' =>
      match skip with
      | S k => split_from sep k s'
      | O =>
          if startswith sep s then
            (EmptyString,
             let (seg, rest) := split_from sep (String.length sep - 1) s' in
             seg :: rest)
          else
            let (seg, rest) := split_from sep 0 s' in
            (String c seg, rest)
      end
  end.

Definition split (sep s : string) : list string :=
  let (seg, rest) := split_from sep 0 s in seg :: rest.

(** White space as [str.strip()] sees it among ASCII characters:
    tab, line feed, vertical tab, form feed, carriage return, the four
    separators 28 to 31, and the space. *)
Definition isspace (c : ascii) : bool :=
  let n := N_of_ascii c in
  ((9 <=? n) && (n <=? 13) || (28 <=? n) && (n <=? 32))%N.

Definition isdigit (c : ascii) : bool :=
  let n := N_of_ascii c in ((48 <=? n) && (n <=? 57))%N.

Fixpoint lstrip (s : string) : string :=
  match s with
  | EmptyString => EmptyString
  | String c s' => if isspace c then lstrip s' else s
  end.

Fixpoint rstrip (s : string) : string :=
  match s with
  | EmptyString => EmptyString
  | String c s' =>
      let r := rstrip s' in
      if isspace c && String.eqb r EmptyString then EmptyString
      else String c r
  end.

Definition strip (s : string) : string := rstrip (lstrip s).

End PyStr.

(** ** The fragment of [re] the client uses

    Both patterns of the client are sequences of literals and greedy
    repetitions of one character class.  The matcher is the backtracking
    one of [re]: a repetition first takes the longest run and gives
    characters back one at a time while the rest of the pattern fails. *)

Module Re.
Import PyStr.

Inductive charclass :=
| Digit                 (* \d *)
| NotChar (c : ascii).  (* [^c] *)

Inductive atom :=
| Lit (s : string)
| Rep (cls : charclass) (least : nat) (capture : bool).

Definition regex := list atom.

Definition in_class (cls : charclass) (c : ascii) : bool :=
  match cls with
  | Digit => isdigit c
  | NotChar x => negb (Ascii.eqb c x)
  end.

(** Length of the longest prefix of [s] inside the class. *)
Fixpoint run_length (cls : charclass) (s : string) : nat :=
  match s with
  | EmptyString => O
  | String c s' => if in_class cls c then S (run_length cls s') else O
  end.

(** Try [n], [n-1], ... down to [least]. *)
Fixpoint backtrack {R} (try : nat -> option R) (least n : nat) : option R :=
  if (n <? least)%nat then None
  else
    match try n, n with
    | Some r, _ => Some r
    | None, S n' => backtrack try least n'
    | None, O => None
    end.

(** A match anchored at the start of [s]: the captured groups and the
    number of characters consumed. *)
Fixpoint match_at (p : regex) (s : string) : option (list string * nat) :=
  match p with
  | [] => Some ([], O)
  | Lit l :: p' =>
      if startswith l s then
        match match_at p' (drop (String.length l) s) with
        | Some (gs, n) => Some (gs, (String.length l + n)%nat)
        | None => None
        end
      else None
  | Rep cls least capture :: p' =>
      backtrack
        (fun n =>
           match match_at p' (drop n s) with
           | Some (gs, m) =>
               Some (if capture then take n s :: gs else gs, (n + m)%nat)
           | None => None
           end)
        least (run_length cls s)
  end.

(** [re.findall]: all matches from left to right, not overlapping.  The
    patterns of the client never match the empty string. *)
Fixpoint findall_from (p : regex) (skip : nat) (s : string)
  : list (list string) :=
  match s with
  | EmptyString => []
  | String c s' =>
      match skip with
      | S k => findall_from p k s'
      | O =>
          match match_at p s with
          | Some (gs, n) => gs :: findall_from p (n - 1) s'
          | None => findall_from p 0 s'
          end
      end
  end.

Definition findall (p : regex) (s : string) : list (list string) :=
  findall_from p 0 s.

(** [re.search]: the leftmost match. *)
Fixpoint search (p : regex) (s : string) : option (list string) :=
  match match_at p s with
  | Some (gs, _) => Some gs
  | None =>
      match s with
      | EmptyString => None
      | String _ s' => search p s'
      end
  end.

End Re.

(** ** Exceptions

    Everything the methods can raise derives from [Exception]; the
    constructors keep apart what the portal, the HTTP session and the Python
    operations raise. *)

Inductive resource := PendingPayments | PaymentHistory | Counters.

Inductive exn :=
| LoginPageError (status : Z)              (* "Failed to load login page: ..." *)
| FetchError (r : resource) (status : Z)   (* "Failed to fetch ...: ..." *)
| ClientError (msg : string)               (* raised by the HTTP session *)
| ContentTypeError                         (* [response.json()], wrong content type *)
| UnicodeDecodeError                       (* [response.text()] *)
| ValueError
| TypeError
| AttributeError
| KeyError
| IndexError
| OverflowError.

Inductive result (A : Type) :=
| Ok (a : A)
| Raise (e : exn).
Arguments Ok {A} a.
Arguments Raise {A} e.

Definition is_raise {A} (r : result A) : bool :=
  match r with Raise _ => true | Ok _ => false end.

(** ** Values decoded from JSON

    [response.json()] yields [None], booleans, integers, floats, strings,
    lists and dictionaries.  A dictionary is the list of its items in
    insertion order; a lookup takes the first item with the key. *)

Inductive json :=
| JNull
| JBool (b : bool)
| JInt (z : Z)
| JFloat (f : spec_float)
| JStr (s : string)
| JList (items : list json)
| JObject (fields : list (string * json)).

Module Py.

(** Python floats are binary64 numbers. *)
Definition prec : Z := 53.
Definition emax : Z := 1024.

Definition zero : spec_float := S754_zero false.   (* the literal [0.0] *)

(** [float(n)] for an integer: the nearest binary64 number, ties to even,
    [OverflowError] beyond the largest finite one. *)
Definition float_of_int (n : Z) : result spec_float :=
  match binary_normalize prec emax n 0 false with
  | S754_infinity _ => Raise OverflowError
  | f => Ok f
  end.

(** The binary64 number nearest to [m / 10^k], the value of a decimal
    literal with [k] digits after the point. *)
Definition float_of_decimal (m : positive) (k : nat) : spec_float :=
  let '(q, e, l) :=
    SFdiv_core_binary prec emax (Zpos m) 0 (10 ^ Z.of_nat k) 0 in
  binary_round_aux prec emax false q e l.

(** Truth value of an object. *)
Definition truthy (v : json) : bool :=
  match v with
  | JNull => false
  | JBool b => b
  | JInt z => negb (Z.eqb z 0)
  | JFloat (S754_zero _) => false
  | JFloat _ => true
  | JStr s => negb (String.eqb s EmptyString)
  | JList l => match l with [] => false | _ => true end
  | JObject fs => match fs with [] => false | _ => true end
  end.

Fixpoint assoc (key : string) (fs : list (string * json)) : option json :=
  match fs with
  | [] => None
  | (k, v) :: fs' => if String.eqb k key then Some v else assoc key fs'
  end.

(** [d.get(key, default)]: only dictionaries have the method. *)
Definition get (d : json) (key : string) (default : json) : result json :=
  match d with
  | JObject fs => Ok (match assoc key fs with Some v => v | None => default end)
  | _ => Raise AttributeError
  end.

(** [d[key]] with a string key. *)
Definition item (d : json) (key : string) : result json :=
  match d with
  | JObject fs =>
      match assoc key fs with Some v => Ok v | None => Raise KeyError end
  | JList _ | JStr _ => Raise TypeError     (* indices must be integers *)
  | _ => Raise TypeError                    (* not subscriptable *)
  end.

(** [len(v)]. *)
Definition len (v : json) : result nat :=
  match v with
  | JList l => Ok (List.length l)
  | JStr s => Ok (String.length s)
  | JObject fs => Ok (List.length fs)
  | _ => Raise TypeError
  end.

(** [v[0]]. *)
Definition first (v : json) : result json :=
  match v with
  | JList (x :: _) => Ok x
  | JList [] => Raise IndexError
  | JStr (String c _) => Ok (JStr (String c EmptyString))
  | JStr EmptyString => Raise IndexError
  | JObject _ => Raise KeyError             (* the keys are strings *)
  | _ => Raise TypeError
  end.

Section Float.
(** [float(s)] for a string is the decimal parser of the Python runtime:
    it is taken as given, [None] standing for [ValueError]. *)
Variable float_of_str : string -> option spec_float.

(** [float(v)]. *)
Definition float (v : json) : result spec_float :=
  match v with
  | JFloat f => Ok f
  | JInt z => float_of_int z
  | JBool b => float_of_int (if b then 1 else 0)
  | JStr s =>
      match float_of_str s with
      | Some f => Ok f
      | None => Raise ValueError
      end
  | JNull | JList _ | JObject _ => Raise TypeError
  end.
End Float.

End Py.

(** ** The portal

    What the portal (and the network on the way to it) answers to each call
    of the client.  A call either raises in the HTTP session or yields a
    response: its status, the cookies it sets, and what reading the body
    gives ([response.text()], [response.json()]). *)

Record response (B : Type) := Response {
  status : Z;
  cookies : gmap string string;
  body : result B
}.
Arguments Response {B} status cookies body.
Arguments status {B} r.
Arguments cookies {B} r.
Arguments body {B} r.

Record Portal := {
  (* session.get(LOGIN_URL) *)
  login_page : result (response unit);
  (* session.post(LOGIN_URL, data=..., cookies=..., allow_redirects=False) *)
  login_submit :
    list (string * string) -> gmap string string -> result (response unit);
  (* session.get(DASHBOARD_URL, cookies=...) *)
  dashboard : gmap string string -> result (response string);
  (* session.get(API_<resource>.format(location_id=...), cookies=...) *)
  api : resource -> string -> gmap string string -> result (response json)
}.

(** The calls a method issued, in order. *)
Inductive call :=
| CallLoginPage
| CallLoginSubmit (data : list (string * string))
| CallDashboard
| CallApi (r : resource) (location_id : string).

(** ** The client object *)

Inductive location_type := Apartment | Parking | Unknown.

(** An entry of [_location_info]: the keys "name", "id" and "type" are
    always there, "apartment" and "association_id" may be missing. *)
Record LocationInfo := {
  name : string;
  id : string;
  apartment : option string;
  type : location_type;
  association_id : option string
}.

Record Client := {
  _username : string;
  _password : string;
  _cookies : gmap string string;
  _authenticated : bool;
  _location_ids : list string;
  _location_info : gmap string LocationInfo
}.

(** [AdminisLocuinteAPI.__init__] *)
Definition init (username password : string) : Client :=
  {| _username := username;
     _password := password;
     _cookies := ∅;
     _authenticated := false;
     _location_ids := [];
     _location_info := ∅ |}.

(** ** Methods as computations

    A method takes the object, and ends by returning or raising; it leaves
    the object as it is at that point, and the calls it made. *)

Record outcome (A : Type) := Outcome {
  res : result A;
  final : Client;
  log : list call
}.
Arguments Outcome {A} res final log.
Arguments res {A} o.
Arguments final {A} o.
Arguments log {A} o.

Definition M (A : Type) : Type := Client -> outcome A.

Definition ret {A} (a : A) : M A := fun self => Outcome (Ok a) self [].

Definition raise {A} (e : exn) : M A := fun self => Outcome (Raise e) self [].

Definition bind {A B} (m : M A) (k : A -> M B) : M B :=
  fun self =>
    let o := m self in
    match res o with
    | Ok a =>
        let o' := k a (final o) in
        Outcome (res o') (final o') (log o ++ log o')
    | Raise e => Outcome (Raise e) (final o) (log o)
    end.

(** [try: m except Exception as e: h e] *)
Definition try_except {A} (m : M A) (h : exn -> M A) : M A :=
  fun self =>
    let o := m self in
    match res o with
    | Ok a => o
    | Raise e =>
        let o' := h e (final o) in
        Outcome (res o') (final o') (log o ++ log o')
    end.

Definition lift {A} (r : result A) : M A :=
  fun self => Outcome r self [].

(** The object itself. *)
Definition self : M Client := fun self => Outcome (Ok self) self [].

Definition assign (f : Client -> Client) : M unit :=
  fun self => Outcome (Ok tt) (f self) [].

(** An HTTP call and what the portal answered. *)
Definition request {A} (c : call) (answer : result A) : M A :=
  fun self => Outcome answer self [c].

Declare Scope py_scope.
Delimit Scope py_scope with py.
Notation "x <- m ;; k" := (bind m (fun x => k))
  (at level 100, m at next level, right associativity) : py_scope.
Notation "m ;; k" := (bind m (fun _ => k))
  (at level 100, right associativity) : py_scope.
Open Scope py_scope.

(** [for x in l: acc = body acc x] *)
Fixpoint for_each {A B} (body : B -> A -> M B) (l : list A) (acc : B) : M B :=
  match l with
  | [] => ret acc
  | x :: l' => acc' <- body acc x ;; for_each body l' acc'
  end.

Definition set_cookies (c : gmap string string) (s : Client) : Client :=
  {| _username := _username s; _password := _password s;
     _cookies := c;
     _authenticated := _authenticated s;
     _location_ids := _location_ids s;
     _location_info := _location_info s |}.

Definition set_authenticated (b : bool) (s : Client) : Client :=
  {| _username := _username s; _password := _password s;
     _cookies := _cookies s;
     _authenticated := b;
     _location_ids := _location_ids s;
     _location_info := _location_info s |}.

Definition set_location_ids (l : list string) (s : Client) : Client :=
  {| _username := _username s; _password := _password s;
     _cookies := _cookies s;
     _authenticated := _authenticated s;
     _location_ids := l;
     _location_info := _location_info s |}.

Definition set_location_info (i : gmap string LocationInfo) (s : Client)
  : Client :=
  {| _username := _username s; _password := _password s;
     _cookies := _cookies s;
     _authenticated := _authenticated s;
     _location_ids := _location_ids s;
     _location_info := i |}.

(** [self._cookies.update({k: v.value for k, v in response.cookies.items()})] *)
Definition update_cookies (c : gmap string string) : M unit :=
  assign (fun s => set_cookies (c ∪ _cookies s) s).

(** ** [authenticate] *)

Definition login_data (s : Client) : list (string * string) :=
  [("email", _username s); ("password", _password s); ("formSubmitted", "1")].

Definition authenticate (up : Portal) : M bool :=
  try_except
    (response <- request CallLoginPage (login_page up) ;;
     (if negb (Z.eqb (status response) 200)
      then raise (LoginPageError (status response))
      else ret tt) ;;
     update_cookies (cookies response) ;;
     s <- self ;;
     response <- request (CallLoginSubmit (login_data s))
                   (login_submit up (login_data s) (_cookies s)) ;;
     update_cookies (cookies response) ;;
     if Z.eqb (status response) 302 then
       s <- self ;;
       match _cookies s !! "adminis" with
       | Some _ => assign (set_authenticated true) ;; ret true
       | None => ret false
       end
     else ret false)
    (fun err => raise err).

(** ** [_extract_location_ids] *)

Import PyStr.

(** [r'data-code="(\d+)"[^>]*>([^<]+)<'] *)
Definition location_pattern : Re.regex :=
  [Re.Lit ("data-code=" ++ String dquote "");
   Re.Rep Re.Digit 1 true;
   Re.Lit (String dquote "");
   Re.Rep (Re.NotChar ">") 0 false;
   Re.Lit ">";
   Re.Rep (Re.NotChar "<") 1 true;
   Re.Lit "<"].

(** [r'data-assoc="(\d+)"'] *)
Definition assoc_pattern : Re.regex :=
  [Re.Lit ("data-assoc=" ++ String dquote "");
   Re.Rep Re.Digit 1 true;
   Re.Lit (String dquote "")].

(** [loc_name.split(", ap. ")[1].split(",")[0]] *)
Definition designator (loc_name : string) : string :=
  nth 0 (split "," (nth 1 (split ", ap. " loc_name) "")) "".

(** The dictionary stored for a match whose id is new (lines 124 to 139). *)
Definition location_entry (loc_id loc_name : string) : LocationInfo :=
  if contains ", ap. " loc_name then
    let apt := designator loc_name in
    {| name := strip loc_name;
       id := loc_id;
       apartment := Some apt;
       type := if contains "PARCARI" loc_name || startswith "S" apt
               then Parking else Apartment;
       association_id := None |}
  else
    {| name := strip loc_name;
       id := loc_id;
       apartment := None;
       type := Unknown;
       association_id := None |}.

(** One turn of the loop over the matches: the local [location_ids] and
    [self._location_info]. *)
Definition scan_match (acc : list string * gmap string LocationInfo)
    (m : list string) : list string * gmap string LocationInfo :=
  let loc_id := nth 0 m "" in
  let loc_name := nth 1 m "" in
  if bool_decide (loc_id ∈ acc.1) then acc
  else ((acc.1 ++ [loc_id])%list, <[loc_id := location_entry loc_id loc_name]> acc.2).

Definition set_association (assoc_id : string) (e : LocationInfo)
  : LocationInfo :=
  {| name := name e; id := id e; apartment := apartment e; type := type e;
     association_id := Some assoc_id |}.

(** What the method does with the markup once it has it (lines 113 to 151). *)
Definition scan_dashboard (html : string) (info : gmap string LocationInfo)
  : list string * gmap string LocationInfo :=
  let matches := Re.findall location_pattern html in
  let found := fold_left scan_match matches ([], info) in
  match Re.search assoc_pattern html with
  | Some groups =>
      (found.1,
       fold_left (fun i loc_id => alter (set_association (nth 0 groups "")) loc_id i)
         found.1 found.2)
  | None => found
  end.

Definition _extract_location_ids (up : Portal) : M (list string) :=
  try_except
    (s <- self ;;
     response <- request CallDashboard (dashboard up (_cookies s)) ;;
     if Z.eqb (status response) 200 then
       html <- lift (body response) ;;
       s <- self ;;
       let found := scan_dashboard html (_location_info s) in
       assign (set_location_info found.2) ;;
       ret found.1
     else ret [])
    (fun _ => ret []).

(** ** The three fetchers *)

Definition fetch (up : Portal) (r : resource) (location_id : string) : M json :=
  s <- self ;;
  response <- request (CallApi r location_id)
                (api up r location_id (_cookies s)) ;;
  if Z.eqb (status response) 200 then lift (body response)
  else raise (FetchError r (status response)).

Definition _fetch_pending_payments (up : Portal) := fetch up PendingPayments.
Definition _fetch_payment_history (up : Portal) := fetch up PaymentHistory.
Definition _fetch_counters (up : Portal) := fetch up Counters.

(** ** [get_data] *)

(** The local [last_payment]. *)
Record LastPayment := {
  amount : spec_float;
  date : json;
  location_id : string
}.

(** The dictionary built per location: "info" is set when the id is known,
    the three others always, to the value fetched or to [None]. *)
Record LocationData := {
  info : option LocationInfo;
  pending_payments : json;
  payment_history : json;
  counters : json
}.

(** "last_payment_amount", "last_payment_date" and
    "last_payment_location_id" are set together or not at all. *)
Record Summary := {
  total_pending : spec_float;
  location_count : nat;
  last_payment : option LastPayment
}.

Record Snapshot := {
  locations : gmap string LocationData;
  summary : Summary
}.

(** The value returned when no location is known (line 189). *)
Definition empty_snapshot : Snapshot :=
  {| locations := ∅;
     summary := {| total_pending := Py.zero;
                   location_count := 0;
                   last_payment := None |} |}.

Section Poll.
Variable float_of_str : string -> option spec_float.
Variable up : Portal.

(** Lines 214 to 227: the value of [location_data["pending_payments"]]
    when the block is left. *)
Definition pending_block (location_id : string) : M json :=
  try_except
    (pending_payments <- _fetch_pending_payments up location_id ;;
     found <- lift (Py.get pending_payments "results" JNull) ;;
     (if Py.truthy found then
        results <- lift (Py.item pending_payments "results") ;;
        owner <- lift (Py.get results "owner" JNull) ;;
        if Py.truthy owner then ret tt
        else (_ <- lift (Py.get results "assoc" JNull) ;; ret tt)
      else ret tt) ;;
     ret pending_payments)
    (fun _ => ret JNull).

(** Lines 230 to 245: the value of [location_data["payment_history"]] and
    of [last_payment] when the block is left. *)
Definition history_block (location_id : string)
    (last_payment : option LastPayment) : M (json * option LastPayment) :=
  try_except
    (payment_history <- _fetch_payment_history up location_id ;;
     found <- lift (Py.get payment_history "results" JNull) ;;
     if Py.truthy found then
       results <- lift (Py.item payment_history "results") ;;
       n <- lift (Py.len results) ;;
       if (0 <? n)%nat then
         latest <- lift (Py.first results) ;;
         match last_payment with
         | None =>
             a <- lift (Py.get latest "amount" (JInt 0)) ;;
             amount <- lift (Py.float float_of_str a) ;;
             date <- lift (Py.get latest "date" (JStr "")) ;;
             ret (payment_history,
                  Some {| amount := amount; date := date;
                          location_id := location_id |})
         | Some _ => ret (payment_history, last_payment)
         end
       else ret (payment_history, last_payment)
     else ret (payment_history, last_payment))
    (fun _ => ret (JNull, last_payment)).

(** Lines 248 to 256: both handlers store [None]. *)
Definition counters_block (location_id : string) : M json :=
  try_except
    (_fetch_counters up location_id)
    (fun err =>
       match err with
       | ContentTypeError | ValueError => ret JNull
       | _ => ret JNull
       end).

(** One turn of the loop of line 196, on [locations_data] and
    [last_payment]. *)
Definition poll_location
    (acc : gmap string LocationData * option LastPayment)
    (location_id : string)
  : M (gmap string LocationData * option LastPayment) :=
  s <- self ;;
  let info := _location_info s !! location_id in
  pending <- pending_block location_id ;;
  history <- history_block location_id acc.2 ;;
  counters <- counters_block location_id ;;
  ret (<[location_id :=
           {| info := info;
              pending_payments := pending;
              payment_history := history.1;
              counters := counters |}]> acc.1,
       history.2).

(** Lines 191 to 274. *)
Definition collect : M Snapshot :=
  s <- self ;;
  polled <- for_each poll_location (_location_ids s) (∅, None) ;;
  s <- self ;;
  ret {| locations := polled.1;
         summary := {| total_pending := Py.zero;
                       location_count := List.length (_location_ids s);
                       last_payment := polled.2 |} |}.

Definition get_data : M Snapshot :=
  s <- self ;;
  (if negb (_authenticated s) then (_ <- authenticate up ;; ret tt)
   else ret tt) ;;
  try_except
    (s <- self ;;
     match _location_ids s with
     | [] =>
         ids <- _extract_location_ids up ;;
         assign (set_location_ids ids) ;;
         match ids with
         | [] => ret empty_snapshot
         | _ => collect
         end
     | _ => collect
     end)
    (fun err => raise err).

(** [get_locations] *)
Definition get_locations : M (list string) :=
  s <- self ;;
  (if negb (_authenticated s) then (_ <- authenticate up ;; ret tt)
   else ret tt) ;;
  s <- self ;;
  match _location_ids s with
  | [] =>
      ids <- _extract_location_ids up ;;
      assign (set_location_ids ids) ;;
      ret ids
  | ids => ret ids
  end.

(** [get_billing_info]: the summary of [get_data]. *)
Definition get_billing_info : M Summary :=
  s <- self ;;
  (if negb (_authenticated s) then (_ <- authenticate up ;; ret tt)
   else ret tt) ;;
  data <- get_data ;;
  ret (summary data).

End Poll.

(** ** A parser for plain decimal literals

    [float(s)] itself is a parameter of the development.  The examples
    instantiate it with this parser, which reads the literals made of digits
    with at most one point inside ("862.12", "50") as Python does, and
    rejects every other string. *)

Module Decimal.

Fixpoint read_digits (s : string) (acc : Z) (n : nat) : Z * nat * string :=
  match s with
  | String c s' =>
      if isdigit c
      then read_digits s' (10 * acc + (Z.of_N (N_of_ascii c) - 48)) (S n)
      else (acc, n, s)
  | EmptyString => (acc, n, s)
  end.

Definition float_of_scaled (m : Z) (k : nat) : spec_float :=
  match m with
  | Zpos p => Py.float_of_decimal p k
  | _ => Py.zero
  end.

Definition float_of_str (s : string) : option spec_float :=
  let '(whole, n, rest) := read_digits s 0 0 in
  match n, rest with
  | O, _ => None
  | _, EmptyString => Some (float_of_scaled whole 0)
  | _, String "." rest' =>
      let '(all, k, rest'') := read_digits rest' whole 0 in
      match k, rest'' with
      | S _, EmptyString => Some (float_of_scaled all k)
      | _, _ => None
      end
  | _, _ => None
  end.

End Decimal.

(** * Notions used to state the properties *)

(** ** What the blocks of a poll compute

    The fetchers and the three guarded blocks read the object and leave it
    unchanged, so each of them is a function of the cookies and of the
    answer of the portal. *)

Definition rbind {A B} (r : result A) (k : A -> result B) : result B :=
  match r with
  | Ok a => k a
  | Raise e => Raise e
  end.

Notation "'let*' x ':=' r 'in' k" := (rbind r (fun x => k))
  (at level 10, x name, r at level 100, k at level 200).

(** What a fetcher returns or raises. *)
Definition fetched (up : Portal) (cks : gmap string string) (r : resource)
    (loc : string) : result json :=
  let* response := api up r loc cks in
  if Z.eqb (status response) 200 then body response
  else Raise (FetchError r (status response)).

(** What the pending-payments block evaluates after the fetch. *)
Definition pending_check (pending_payments : json) : result unit :=
  let* found := Py.get pending_payments "results" JNull in
  if Py.truthy found then
    let* results := Py.item pending_payments "results" in
    let* owner := Py.get results "owner" JNull in
    if Py.truthy owner then Ok tt
    else let* _ := Py.get results "assoc" JNull in Ok tt
  else Ok tt.

(** The record the payment-history block looks at, if any. *)
Definition latest_record (payment_history : json) : result (option json) :=
  let* found := Py.get payment_history "results" JNull in
  if Py.truthy found then
    let* results := Py.item payment_history "results" in
    let* n := Py.len results in
    if (0 <? n)%nat then let* latest := Py.first results in Ok (Some latest)
    else Ok None
  else Ok None.

Definition counters_value (r : result json) : json :=
  match r with
  | Ok counters => counters
  | Raise _ => JNull
  end.

Definition pending_value (r : result json) : json :=
  match r with
  | Ok pending_payments =>
      match pending_check pending_payments with
      | Ok _ => pending_payments
      | Raise _ => JNull
      end
  | Raise _ => JNull
  end.

(** The field of a location's dictionary that holds a resource. *)
Definition field (r : resource) (d : LocationData) : json :=
  match r with
  | PendingPayments => pending_payments d
  | PaymentHistory => payment_history d
  | Counters => counters d
  end.

(** The calls of one turn of the loop, and of the whole loop. *)
Definition location_calls (loc : string) : list call :=
  [CallApi PendingPayments loc; CallApi PaymentHistory loc;
   CallApi Counters loc].

Definition poll_calls (ids : list string) : list call :=
  flat_map location_calls ids.

Definition is_login_call (c : call) : bool :=
  match c with
  | CallLoginPage | CallLoginSubmit _ => true
  | _ => false
  end.

Section Derived.
Variable float_of_str : string -> option spec_float.
Variable up : Portal.

(** The dictionary of lines 238 to 242. *)
Definition candidate (loc : string) (latest : json) : result LastPayment :=
  let* a := Py.get latest "amount" (JInt 0) in
  let* amount := Py.float float_of_str a in
  let* date := Py.get latest "date" (JStr "") in
  Ok {| amount := amount; date := date; location_id := loc |}.

Definition history_value (loc : string) (last : option LastPayment)
    (r : result json) : json * option LastPayment :=
  match r with
  | Ok payment_history =>
      match latest_record payment_history, last with
      | Ok (Some latest), None =>
          match candidate loc latest with
          | Ok c => (payment_history, Some c)
          | Raise _ => (JNull, None)
          end
      | Ok _, _ => (payment_history, last)
      | Raise _, _ => (JNull, last)
      end
  | Raise _ => (JNull, last)
  end.

(** The candidate a location puts forward while no last payment is
    known. *)
Definition offered (cks : gmap string string) (loc : string)
  : option LastPayment :=
  (history_value loc None (fetched up cks PaymentHistory loc)).2.

(** The candidate of the first location, in order, that has one. *)
Fixpoint first_offer (cks : gmap string string) (ids : list string)
  : option LastPayment :=
  match ids with
  | [] => None
  | loc :: ids' =>
      match offered cks loc with
      | Some c => Some c
      | None => first_offer cks ids'
      end
  end.

(** A body on which the processing that follows the fetch, inside the same
    [try], does not raise. *)
Definition conforms (r : resource) (loc : string) (b : json) : Prop :=
  match r with
  | PendingPayments => pending_check b = Ok tt
  | PaymentHistory =>
      latest_record b = Ok None \/
      exists latest c,
        latest_record b = Ok (Some latest) /\ candidate loc latest = Ok c
  | Counters => True
  end.

(** One turn of the loop of [get_data], and the loop. *)
Definition polled_location (cks : gmap string string)
    (known : gmap string LocationInfo)
    (acc : gmap string LocationData * option LastPayment) (loc : string)
  : gmap string LocationData * option LastPayment :=
  let h := history_value loc acc.2 (fetched up cks PaymentHistory loc) in
  (<[loc := {| info := known !! loc;
               pending_payments :=
                 pending_value (fetched up cks PendingPayments loc);
               payment_history := h.1;
               counters := counters_value (fetched up cks Counters loc) |}]>
     acc.1,
   h.2).

Definition polled (cks : gmap string string)
    (known : gmap string LocationInfo) (ids : list string)
    (acc : gmap string LocationData * option LastPayment) :=
  fold_left (polled_location cks known) ids acc.

(** The value [get_data] builds from the object once the locations are
    known. *)
Definition snapshot_of (s : Client) : Snapshot :=
  let p := polled (_cookies s) (_location_info s) (_location_ids s) (∅, None) in
  {| locations := p.1;
     summary := {| total_pending := Py.zero;
                   location_count := List.length (_location_ids s);
                   last_payment := p.2 |} |}.

(** The markup of the dashboard, when the page could be read. *)
Definition dashboard_text (cks : gmap string string) : option string :=
  match dashboard up cks with
  | Ok response =>
      if Z.eqb (status response) 200 then
        match body response with
        | Ok html => Some html
        | Raise _ => None
        end
      else None
  | Raise _ => None
  end.

(** The object when [_extract_location_ids] returns, and what it
    returns. *)
Definition discovered_ids (s : Client) : list string :=
  match dashboard_text (_cookies s) with
  | Some html => (scan_dashboard html (_location_info s)).1
  | None => []
  end.

Definition discovered (s : Client) : Client :=
  match dashboard_text (_cookies s) with
  | Some html =>
      set_location_info (scan_dashboard html (_location_info s)).2 s
  | None => s
  end.

(** The object when [get_data] starts the loop over the locations, given
    the object it had after the login step. *)
Definition ready (s : Client) : Client :=
  match _location_ids s with
  | [] => set_location_ids (discovered_ids s) (discovered s)
  | _ => s
  end.

Definition discovery_calls (s : Client) : list call :=
  match _location_ids s with
  | [] => [CallDashboard]
  | _ => []
  end.

(** The object after the login step of a poll. *)
Definition logged (s : Client) : Client :=
  if _authenticated s then s else final (authenticate up s).

End Derived.

(** The ids of the matches of the location pattern, in order. *)
Definition match_id (m : list string) : string := nth 0 m "".

Definition matched_ids (html : string) : list string :=
  map match_id (Re.findall location_pattern html).

(** ** The wording of the specification *)

(** The statuses by which a server redirects: 301, 302, 303, 307, 308. *)
Definition spec_redirect_status (status : Z) : bool :=
  Z.eqb status 301 || Z.eqb status 302 || Z.eqb status 303 ||
  Z.eqb status 307 || Z.eqb status 308.

(** The text after the first occurrence of [sep]. *)
Fixpoint spec_after_first (sep s : string) : option string :=
  if startswith sep s then Some (drop (String.length sep) s)
  else
    match s with
    | EmptyString => None
    | String _ s' => spec_after_first sep s'
    end.

(** The text up to the first [c]. *)
Fixpoint spec_until (c : ascii) (s : string) : string :=
  match s with
  | EmptyString => EmptyString
  | String x s' => if Ascii.eqb x c then EmptyString else String x (spec_until c s')
  end.

(** "the substring after ', ap. ' up to the next comma" *)
Definition spec_designator (label : string) : option string :=
  match spec_after_first ", ap. " label with
  | Some rest => Some (spec_until "," rest)
  | None => None
  end.

(** The classification as the claim words it: the marker token alone makes
    a parking place. *)
Definition spec_classify (label : string) : location_type :=
  match spec_designator label with
  | Some d =>
      if contains "PARCARI" label || startswith "S" d then Parking
      else Apartment
  | None => if contains "PARCARI" label then Parking else Unknown
  end.

(** ** The objects the integration can hold

    The integration builds the object, and then calls its public methods
    against whatever the portal answers.  Of the public methods that are not
    embedded here, [get_payment_history] changes the object as
    [get_locations] does (it logs in and discovers in the same way, and the
    fetcher leaves the object alone), and [get_monthly_consumption] does not
    touch it. *)

Inductive reachable : Client -> Prop :=
| reach_init username password :
    reachable (init username password)
| reach_authenticate up s :
    reachable s -> reachable (final (authenticate up s))
| reach_get_data fos up s :
    reachable s -> reachable (final (get_data fos up s))
| reach_get_locations up s :
    reachable s -> reachable (final (get_locations up s))
| reach_get_billing_info fos up s :
    reachable s -> reachable (final (get_billing_info fos up s)).

(** ** Portals for the worked scenarios *)

Module Scenario.

Definition ok {B} (b : B) : result (response B) :=
  Ok (Response 200 ∅ (Ok b)).

Definition quoted (s : string) : string :=
  String dquote s ++ String dquote "".

(** Two locations, the second one a parking place. *)
Definition markup : string :=
  "<li data-code=" ++ quoted "16835" ++ ">Str. X, ap. 12, Iasi</li>" ++
  "<li data-code=" ++ quoted "17012" ++ ">Str. X, ap. S4, Iasi</li>".

(** The same location twice, then another one. *)
Definition markup_repeated : string :=
  "<a data-code=" ++ quoted "16835" ++ ">Str. X, ap. 12, Iasi</a>" ++
  "<b data-code=" ++ quoted "16835" ++ ">Str. X, ap. 12, Iasi</b>" ++
  "<a data-code=" ++ quoted "17012" ++ ">Str. X, ap. S4, Iasi</a>".

Definition pending_body : json :=
  JObject [("error", JInt 0); ("allowPayments", JBool true);
           ("results", JObject [("owner", JNull); ("assoc", JNull)])].

Definition history_16835 : json :=
  JObject
    [("results",
      JList
        [JObject
           [("amount", JStr "862.12");
            ("date", JStr "30.01.2026");
            ("details",
             JList
               [JObject [("name", JStr "Fond rulment"); ("amount", JInt 50)];
                JObject [("name", JStr "Intretinere");
                         ("amount", JFloat (Py.float_of_decimal 81212 2))]])]])].

Definition history_empty : json := JObject [("results", JList [])].

Definition counters_body : json := JObject [("results", JList [])].

Definition answers (r : resource) (loc : string) (cks : gmap string string)
  : result (response json) :=
  match r with
  | PendingPayments => ok pending_body
  | PaymentHistory =>
      if String.eqb loc "16835" then ok history_16835 else ok history_empty
  | Counters => ok counters_body
  end.

(** The login succeeds: 302 and the session cookie. *)
Definition portal : Portal :=
  {| login_page := ok tt;
     login_submit := fun _ _ =>
       Ok (Response 302 {["adminis" := "abc123"]} (Ok tt));
     dashboard := fun _ => ok markup;
     api := answers |}.

(** The login form comes back with 200. *)
Definition portal_login_200 : Portal :=
  {| login_page := ok tt;
     login_submit := fun _ _ => Ok (Response 200 ∅ (Ok tt));
     dashboard := fun _ => ok markup;
     api := answers |}.

(** The portal redirects with 303 and sets the session cookie. *)
Definition portal_login_303 : Portal :=
  {| login_page := ok tt;
     login_submit := fun _ _ =>
       Ok (Response 303 {["adminis" := "abc123"]} (Ok tt));
     dashboard := fun _ => ok markup;
     api := answers |}.

(** The login page cannot be loaded. *)
Definition portal_down : Portal :=
  {| login_page := Ok (Response 503 ∅ (Ok tt));
     login_submit := fun _ _ =>
       Ok (Response 302 {["adminis" := "abc123"]} (Ok tt));
     dashboard := fun _ => ok markup;
     api := answers |}.

(** A new account: the dashboard shows no location. *)
Definition portal_new_account : Portal :=
  {| login_page := ok tt;
     login_submit := fun _ _ =>
       Ok (Response 302 {["adminis" := "abc123"]} (Ok tt));
     dashboard := fun _ => ok "<html><body>Nicio locatie</body></html>";
     api := answers |}.

(** The first record of a history has the amount [null]. *)
Definition history_null_amount : json :=
  JObject
    [("results",
      JList [JObject [("amount", JNull); ("date", JStr "15.01.2026")]])].

(** The first record of a history has no amount. *)
Definition history_no_amount : json :=
  JObject [("results", JList [JObject [("date", JStr "15.01.2026")]])].

Definition history_17012 : json :=
  JObject
    [("results",
      JList [JObject [("amount", JInt 100); ("date", JStr "02.02.2026")]])].

(** The counters of 16835 answer 500, every other call succeeds; the
    history of 16835 is [h]. *)
Definition answers_with (h : json) (r : resource) (loc : string)
    (cks : gmap string string) : result (response json) :=
  match r with
  | PendingPayments => ok pending_body
  | PaymentHistory => if String.eqb loc "16835" then ok h else ok history_17012
  | Counters =>
      if String.eqb loc "16835" then Ok (Response 500 ∅ (Ok JNull))
      else ok counters_body
  end.

Definition portal_with (h : json) : Portal :=
  {| login_page := ok tt;
     login_submit := fun _ _ =>
       Ok (Response 302 {["adminis" := "abc123"]} (Ok tt));
     dashboard := fun _ => ok markup;
     api := answers_with h |}.

Definition fresh : Client := init "user@example.org" "secret".

End Scenario.

(** * The sensors that read a snapshot ([sensor.py])

    The coordinator holds [None] before the first poll and the value
    returned by [get_data] afterwards.  A sensor is given the id of its
    location when it is created. *)

Module Sensor.

(** [AdminisLocuinteLocationMonthlyBillSensor.native_value] and
    [AdminisLocuinteLocationLastPaymentSensor.native_value], which have the
    same body: the amount of the first record of the history. *)
Definition latest_amount (float_of_str : string -> option spec_float)
    (data : option Snapshot) (location_id : string)
  : result (option spec_float) :=
  match data with
  | None => Ok None
  | Some snap =>
      match locations snap !! location_id with
      | None => Ok None
      | Some location_data =>
          let history := payment_history location_data in
          if Py.truthy history then
            let* found := Py.get history "results" JNull in
            if Py.truthy found then
              let* results := Py.item history "results" in
              let* n := Py.len results in
              if (0 <? n)%nat then
                let* latest := Py.first results in
                let* amount_str := Py.get latest "amount" (JStr "0") in
                match Py.float float_of_str amount_str with
                | Ok f => Ok (Some f)
                | Raise ValueError | Raise TypeError => Ok None
                | Raise e => Raise e
                end
              else Ok None
            else Ok None
          else Ok None
      end
  end.

Definition monthly_bill_native_value := latest_amount.
Definition last_payment_native_value := latest_amount.

(** [AdminisLocuinteLocationPendingSensor.native_value] *)
Definition pending_native_value (data : option Snapshot)
    (location_id : string) : result spec_float :=
  match data with
  | None => Ok Py.zero
  | Some snap =>
      match locations snap !! location_id with
      | None => Ok Py.zero
      | Some location_data =>
          let pending := pending_payments location_data in
          if Py.truthy pending then
            let* found := Py.get pending "results" JNull in
            if Py.truthy found then
              let* results := Py.item pending "results" in
              let total := Py.zero in
              let* _ := Py.get results "owner" JNull in
              let* _ := Py.get results "assoc" JNull in
              Ok total
            else Ok Py.zero
          else Ok Py.zero
      end
  end.

(** The name given to the sensors of a location in [async_setup_entry]
    (lines 49 to 59). *)
Definition location_name (location_data : LocationData) : string :=
  match info location_data with
  | Some i =>
      match apartment i with
      | Some apt => apt
      | None =>
          let name_parts := split ", ap. " (name i) in
          if (1 <? List.length name_parts)%nat
          then nth 0 (split "," (nth 1 name_parts "")) ""
          else "Unknown"
      end
  | None => "Unknown"
  end.

End Sensor.

(** * Notions for the further properties *)

(** The label of the first match that carries the id. *)
Fixpoint first_label (loc : string) (matches : list (list string))
  : option string :=
  match matches with
  | [] => None
  | m :: matches' =>
      if String.eqb (match_id m) loc then Some (nth 1 m "")
      else first_label loc matches'
  end.

(** The association id of the markup, if it has one. *)
Definition markup_association (html : string) : option string :=
  match Re.search assoc_pattern html with
  | Some groups => Some (nth 0 groups "")
  | None => None
  end.

Definition with_association (a : option string) (e : LocationInfo)
  : LocationInfo :=
  match a with
  | Some assoc_id => set_association assoc_id e
  | None => e
  end.


Definition count_calls (c : call -> bool) (l : list call) : nat :=
  List.length (filter (fun x => c x = true) l).

Definition is_login_page_call (c : call) : bool :=
  match c with
  | CallLoginPage => true
  | _ => false
  end.

(** ** Further portals for the examples *)

Module Scenario2.

(** The history of 17012 lists a text where a record is expected. *)
Definition history_text_record : json :=
  JObject [("results", JList [JStr "n/a"])].

Definition answers (r : resource) (loc : string) (cks : gmap string string)
  : result (response json) :=
  match r with
  | PaymentHistory =>
      if String.eqb loc "16835" then Scenario.ok Scenario.history_16835
      else Scenario.ok history_text_record
  | _ => Scenario.answers r loc cks
  end.

Definition portal : Portal :=
  {| login_page := Scenario.ok tt;
     login_submit := fun _ _ =>
       Ok (Response 302 {["adminis" := "abc123"]} (Ok tt));
     dashboard := fun _ => Scenario.ok Scenario.markup;
     api := answers |}.

End Scenario2.

(** * [get_payment_history] *)

Module Payments.

(** [d[key] = v] on the items of a dictionary: the value is replaced where
    the key is, a new key goes to the end. *)
Fixpoint set_item (key : string) (v : json) (fs : list (string * json))
  : list (string * json) :=
  match fs with
  | [] => [(key, v)]
  | (k, x) :: fs' =>
      if String.eqb k key then (k, v) :: fs'
      else (k, x) :: set_item key v fs'
  end.

(** What [for payment in v] goes through: the items of a list, the
    characters of a string, the keys of a dictionary. *)
Definition iterate (v : json) : result (list json) :=
  match v with
  | JList items => Ok items
  | JStr s => Ok (map (fun c => JStr (String c "")) (list_ascii_of_string s))
  | JObject fs => Ok (map (fun kv => JStr kv.1) fs)
  | _ => Raise TypeError
  end.

(** Lines 380 to 382: what the inner loop appends to [all_payments].  The
    assignment raises [TypeError] on the first item that is not a
    dictionary; the items appended before it stay in the list, and the
    [except] of line 383 takes the exception. *)
Fixpoint tag_payments (loc_id : string) (items : list json) : list json :=
  match items with
  | JObject fs :: items' =>
      JObject (set_item "location_id" (JStr loc_id) fs)
      :: tag_payments loc_id items'
  | _ => []
  end.

(** The key of the sort, [lambda x: x.get("date", "")], computed for every
    payment before the list is sorted. *)
Fixpoint with_date_keys (payments : list json) : result (list (json * json)) :=
  match payments with
  | [] => Ok []
  | p :: payments' =>
      let* key := Py.get p "date" (JStr "") in
      let* rest := with_date_keys payments' in
      Ok ((key, p) :: rest)
  end.

Section Method.
(** [list.sort(reverse=True)] on the payments paired with their keys: the
    order it gives, and the [TypeError] it raises on keys that cannot be
    compared, are those of the Python runtime and are taken as given. *)
Variable sort_descending : list (json * json) -> result (list json).
Variable up : Portal.

(** Lines 376 to 384: [all_payments] after the turn for [loc_id]. *)
Definition history_turn (all_payments : list json) (loc_id : string)
  : M (list json) :=
  try_except
    (history <- _fetch_payment_history up loc_id ;;
     found <- lift (Py.get history "results" JNull) ;;
     if Py.truthy found then
       results <- lift (Py.item history "results") ;;
       try_except
         (items <- lift (iterate results) ;;
          ret (all_payments ++ tag_payments loc_id items)%list)
         (fun _ => ret all_payments)
     else ret all_payments)
    (fun _ => ret all_payments).

Definition get_payment_history (location_id : option string)
  : M (list json) :=
  s <- self ;;
  (if negb (_authenticated s) then (_ <- authenticate up ;; ret tt)
   else ret tt) ;;
  s <- self ;;
  match _location_ids s with
  | [] => ids <- _extract_location_ids up ;; assign (set_location_ids ids)
  | _ => ret tt
  end ;;
  s <- self ;;
  let location_ids :=
    match location_id with
    | Some l => if String.eqb l "" then _location_ids s else [l]
    | None => _location_ids s
    end in
  all_payments <- for_each history_turn location_ids [] ;;
  keyed <- lift (with_date_keys all_payments) ;;
  lift (sort_descending keyed).

(** What the turn for [loc] appends. *)
Definition payments_of (cks : gmap string string) (loc : string)
  : list json :=
  match fetched up cks PaymentHistory loc with
  | Ok history =>
      match Py.get history "results" JNull with
      | Ok found =>
          if Py.truthy found then
            match iterate found with
            | Ok items => tag_payments loc items
            | Raise _ => []
            end
          else []
      | Raise _ => []
      end
  | Raise _ => []
  end.

(** The locations a call asks about. *)
Definition asked (location_id : option string) (s : Client) : list string :=
  match location_id with
  | Some l => if String.eqb l "" then _location_ids s else [l]
  | None => _location_ids s
  end.

End Method.

End Payments.

(** * Properties *)

(** ** The monad *)

Lemma try_except_reraise {A} (m : M A) s :
  try_except m (fun err => raise err) s = m s.
Proof.
  unfold try_except, raise.
  destruct (m s) as [[a|e] s' l]; simpl; [reflexivity|].
  by rewrite app_nil_r.
Qed.

Lemma bind_ok {A B} (m : M A) (k : A -> M B) s a s' l :
  m s = Outcome (Ok a) s' l ->
  bind m k s = Outcome (res (k a s')) (final (k a s')) (l ++ log (k a s')).
Proof. intros H. unfold bind. rewrite H. reflexivity. Qed.

Lemma bind_raise {A B} (m : M A) (k : A -> M B) s e s' l :
  m s = Outcome (Raise e) s' l ->
  bind m k s = Outcome (Raise e) s' l.
Proof. intros H. unfold bind. rewrite H. reflexivity. Qed.

Lemma outcome_eta {A} (o : outcome A) :
  Outcome (res o) (final o) (log o) = o.
Proof. destruct o; reflexivity. Qed.

(** ** The blocks of a poll *)

Section BlockRuns.
Variable float_of_str : string -> option spec_float.
Variable up : Portal.

Lemma fetch_run r loc s :
  fetch up r loc s = Outcome (fetched up (_cookies s) r loc) s [CallApi r loc].
Proof.
  unfold fetch, fetched, bind, self, request, lift, raise, rbind; simpl.
  destruct (api up r loc (_cookies s)) as [response|e]; simpl; [|reflexivity].
  destruct (Z.eqb (status response) 200); reflexivity.
Qed.

Lemma pending_block_run loc s :
  pending_block up loc s =
  Outcome (Ok (pending_value (fetched up (_cookies s) PendingPayments loc)))
    s [CallApi PendingPayments loc].
Proof.
  unfold pending_block, try_except, bind, _fetch_pending_payments.
  rewrite fetch_run; simpl.
  destruct (fetched up (_cookies s) PendingPayments loc) as [pp|e];
    simpl; [|reflexivity].
  unfold pending_check, rbind, lift, ret.
  destruct (Py.get pp "results" JNull) as [found|e]; simpl; [|reflexivity].
  destruct (Py.truthy found); simpl; [|reflexivity].
  destruct (Py.item pp "results") as [results|e]; simpl; [|reflexivity].
  destruct (Py.get results "owner" JNull) as [owner|e]; simpl; [|reflexivity].
  destruct (Py.truthy owner); simpl; [reflexivity|].
  destruct (Py.get results "assoc" JNull); reflexivity.
Qed.

Lemma history_block_run loc last s :
  history_block float_of_str up loc last s =
  Outcome
    (Ok (history_value float_of_str loc last
           (fetched up (_cookies s) PaymentHistory loc)))
    s [CallApi PaymentHistory loc].
Proof.
  unfold history_block, try_except, bind, _fetch_payment_history.
  rewrite fetch_run; simpl.
  destruct (fetched up (_cookies s) PaymentHistory loc) as [ph|e];
    simpl; [|reflexivity].
  unfold latest_record, candidate, rbind, lift, ret.
  destruct (Py.get ph "results" JNull) as [found|e]; simpl; [|reflexivity].
  destruct (Py.truthy found); simpl; [|destruct last; reflexivity].
  destruct (Py.item ph "results") as [results|e]; simpl; [|reflexivity].
  destruct (Py.len results) as [n|e]; simpl; [|reflexivity].
  destruct (0 <? n)%nat; simpl; [|destruct last; reflexivity].
  destruct (Py.first results) as [latest|e]; simpl; [|reflexivity].
  destruct last as [c|]; simpl; [reflexivity|].
  destruct (Py.get latest "amount" (JInt 0)) as [a|e]; simpl; [|reflexivity].
  destruct (Py.float float_of_str a) as [x|e]; simpl; [|reflexivity].
  destruct (Py.get latest "date" (JStr "")); reflexivity.
Qed.

Lemma counters_block_run loc s :
  counters_block up loc s =
  Outcome (Ok (counters_value (fetched up (_cookies s) Counters loc)))
    s [CallApi Counters loc].
Proof.
  unfold counters_block, try_except, _fetch_counters.
  rewrite fetch_run; simpl.
  destruct (fetched up (_cookies s) Counters loc) as [c|e]; simpl;
    [reflexivity|].
  destruct e; reflexivity.
Qed.

Lemma poll_location_run acc loc s :
  poll_location float_of_str up acc loc s =
  Outcome
    (Ok (polled_location float_of_str up (_cookies s) (_location_info s)
           acc loc))
    s (location_calls loc).
Proof.
  unfold poll_location.
  erewrite bind_ok by reflexivity.
  erewrite (bind_ok (pending_block up loc)) by apply pending_block_run.
  erewrite (bind_ok (history_block _ up loc _)) by apply history_block_run.
  erewrite (bind_ok (counters_block up loc)) by apply counters_block_run.
  reflexivity.
Qed.

Lemma for_each_poll_run ids acc s :
  for_each (poll_location float_of_str up) ids acc s =
  Outcome
    (Ok (polled float_of_str up (_cookies s) (_location_info s) ids acc))
    s (poll_calls ids).
Proof.
  revert acc; induction ids as [|loc ids IH]; intros acc; simpl.
  - reflexivity.
  - erewrite bind_ok by apply poll_location_run.
    rewrite IH. reflexivity.
Qed.

Lemma collect_run s :
  collect float_of_str up s =
  Outcome (Ok (snapshot_of float_of_str up s)) s
    (poll_calls (_location_ids s)).
Proof.
  unfold collect.
  erewrite bind_ok by reflexivity.
  erewrite bind_ok by apply for_each_poll_run.
  erewrite bind_ok by reflexivity.
  simpl. rewrite app_nil_r. reflexivity.
Qed.

(** The empty snapshot is what the loop builds from no location. *)
Lemma snapshot_of_no_location s :
  _location_ids s = [] -> snapshot_of float_of_str up s = empty_snapshot.
Proof. intros H. unfold snapshot_of. rewrite H. reflexivity. Qed.

Lemma extract_run s :
  _extract_location_ids up s =
  Outcome (Ok (discovered_ids up s)) (discovered up s) [CallDashboard].
Proof.
  unfold _extract_location_ids, discovered_ids, discovered, dashboard_text,
    try_except, bind, self, request, lift, ret, assign; simpl.
  destruct (dashboard up (_cookies s)) as [response|e]; simpl;
    [|reflexivity].
  destruct (Z.eqb (status response) 200); simpl; [|reflexivity].
  destruct (body response) as [html|e]; simpl; reflexivity.
Qed.

(** The part of [get_data] that follows the login step. *)
Lemma located_run s :
  try_except
    (bind self (fun s0 =>
       match _location_ids s0 with
       | [] =>
           bind (_extract_location_ids up) (fun ids =>
             bind (assign (set_location_ids ids)) (fun _ =>
               match ids with
               | [] => ret empty_snapshot
               | _ => collect float_of_str up
               end))
       | _ => collect float_of_str up
       end))
    (fun err => raise err) s =
  Outcome (Ok (snapshot_of float_of_str up (ready up s))) (ready up s)
    (discovery_calls s ++ poll_calls (_location_ids (ready up s))).
Proof.
  rewrite try_except_reraise.
  erewrite bind_ok by reflexivity.
  unfold ready, discovery_calls.
  destruct (_location_ids s) as [|l0 ls] eqn:Hids.
  - erewrite bind_ok by apply extract_run.
    erewrite bind_ok by reflexivity.
    destruct (discovered_ids up s) as [|i0 more] eqn:Hd.
    + simpl. rewrite snapshot_of_no_location by reflexivity. reflexivity.
    + rewrite collect_run; simpl. reflexivity.
  - rewrite collect_run; simpl. rewrite Hids. reflexivity.
Qed.

Lemma get_data_run_authenticated s :
  _authenticated s = true ->
  get_data float_of_str up s =
  Outcome (Ok (snapshot_of float_of_str up (ready up s))) (ready up s)
    (discovery_calls s ++ poll_calls (_location_ids (ready up s))).
Proof.
  intros Ha. unfold get_data.
  erewrite bind_ok by reflexivity.
  rewrite Ha; simpl.
  rewrite located_run. reflexivity.
Qed.

Lemma get_data_run_login s :
  _authenticated s = false ->
  get_data float_of_str up s =
  let a := authenticate up s in
  match res a with
  | Raise e => Outcome (Raise e) (final a) (log a)
  | Ok _ =>
      Outcome (Ok (snapshot_of float_of_str up (ready up (final a))))
        (ready up (final a))
        (log a ++ discovery_calls (final a) ++
         poll_calls (_location_ids (ready up (final a))))
  end.
Proof.
  intros Ha. unfold get_data.
  erewrite bind_ok by reflexivity.
  rewrite Ha; simpl.
  destruct (authenticate up s) as [[b|e] s' l] eqn:Hau; simpl.
  - erewrite bind_ok; cycle 1.
    { erewrite bind_ok by apply Hau. reflexivity. }
    rewrite located_run; simpl. rewrite app_nil_r. reflexivity.
  - erewrite bind_raise; [reflexivity|].
    erewrite bind_raise by apply Hau. reflexivity.
Qed.

End BlockRuns.

(** ** [authenticate] *)

Lemma authenticate_run up s :
  authenticate up s =
  match login_page up with
  | Raise e => Outcome (Raise e) s [CallLoginPage]
  | Ok page =>
      if Z.eqb (status page) 200 then
        let s1 := set_cookies (cookies page ∪ _cookies s) s in
        let calls := [CallLoginPage; CallLoginSubmit (login_data s)] in
        match login_submit up (login_data s) (_cookies s1) with
        | Raise e => Outcome (Raise e) s1 calls
        | Ok reply =>
            let s2 := set_cookies (cookies reply ∪ _cookies s1) s1 in
            if Z.eqb (status reply) 302 then
              match _cookies s2 !! "adminis" with
              | Some _ => Outcome (Ok true) (set_authenticated true s2) calls
              | None => Outcome (Ok false) s2 calls
              end
            else Outcome (Ok false) s2 calls
        end
      else Outcome (Raise (LoginPageError (status page))) s [CallLoginPage]
  end.
Proof.
  unfold authenticate. rewrite try_except_reraise.
  unfold bind, request, update_cookies, assign, self, raise, ret; simpl.
  destruct (login_page up) as [page|e]; simpl; [|reflexivity].
  destruct (Z.eqb (status page) 200); simpl; [|reflexivity].
  change (login_data (set_cookies (cookies page ∪ _cookies s) s))
    with (login_data s).
  destruct (login_submit up (login_data s) (cookies page ∪ _cookies s))
    as [reply|e]; simpl; [|reflexivity].
  destruct (Z.eqb (status reply) 302); simpl; [|reflexivity].
  destruct ((cookies reply ∪ (cookies page ∪ _cookies s)) !! "adminis");
    reflexivity.
Qed.

(** [authenticate] only talks to the login page. *)
Lemma authenticate_calls up s :
  forallb is_login_call (log (authenticate up s)) = true.
Proof.
  rewrite authenticate_run.
  destruct (login_page up) as [page|e]; simpl; [|reflexivity].
  destruct (Z.eqb (status page) 200); simpl; [|reflexivity].
  destruct (login_submit up _ _) as [reply|e]; simpl; [|reflexivity].
  destruct (Z.eqb (status reply) 302); simpl; [|reflexivity].
  destruct (_ !! "adminis"); reflexivity.
Qed.

Lemma authenticate_location_ids up s :
  _location_ids (final (authenticate up s)) = _location_ids s.
Proof.
  rewrite authenticate_run.
  destruct (login_page up) as [page|e]; simpl; [|reflexivity].
  destruct (Z.eqb (status page) 200); simpl; [|reflexivity].
  destruct (login_submit up _ _) as [reply|e]; simpl; [|reflexivity].
  destruct (Z.eqb (status reply) 302); simpl; [|reflexivity].
  destruct (_ !! "adminis"); reflexivity.
Qed.

(** C5, as amended: once the login page was loaded and the portal answered
    the form, [authenticate] returns without raising, stores the cookies of
    both answers, and returns [True] exactly when the status of the answer
    is 302 and the cookies then held contain "adminis"; it then also marks
    the object as authenticated.  In every other case (any other status, a
    redirect of another kind included, or no such cookie) it returns
    [False]. *)
Theorem authenticate_true_iff_302_and_cookie up s page reply :
  login_page up = Ok page ->
  status page = 200 ->
  login_submit up (login_data s) (cookies page ∪ _cookies s) = Ok reply ->
  let o := authenticate up s in
  _cookies (final o) = cookies reply ∪ (cookies page ∪ _cookies s) /\
  (res o = Ok true <->
   status reply = 302 /\ is_Some (_cookies (final o) !! "adminis")) /\
  (res o <> Ok true -> res o = Ok false) /\
  (res o = Ok true -> _authenticated (final o) = true).
Proof.
  intros Hpage H200 Hreply o. subst o.
  rewrite authenticate_run, Hpage, H200; simpl. rewrite Hreply.
  destruct (Z.eqb_spec (status reply) 302) as [E|N]; simpl.
  - destruct ((cookies reply ∪ (cookies page ∪ _cookies s)) !! "adminis")
      as [v|] eqn:Hc; simpl.
    + rewrite Hc. repeat split; eauto; congruence.
    + rewrite Hc. repeat split; try congruence.
      intros [_ [v Hv]]; congruence.
  - repeat split; try congruence. intros [E _]; congruence.
Qed.

(** The scenario of the specification: 302 with the cookie
    "adminis=abc123". *)
Lemma authenticate_true_iff_302_and_cookie_witness :
  let o := authenticate Scenario.portal Scenario.fresh in
  res o = Ok true /\ _cookies (final o) !! "adminis" = Some "abc123".
Proof.
  pose proof (authenticate_true_iff_302_and_cookie Scenario.portal
                Scenario.fresh (Response 200 ∅ (Ok tt))
                (Response 302 {["adminis" := "abc123"]} (Ok tt))
                eq_refl eq_refl eq_refl) as [Hc [Hiff _]].
  simpl in *. split.
  - apply Hiff. split; [reflexivity|]. rewrite Hc. vm_compute. eauto.
  - rewrite Hc. vm_compute. reflexivity.
Defined.

(** C5, as stated, fails: 303 is a redirect status and the cookie is set,
    yet [authenticate] returns [False]. *)
Lemma authenticate_redirect_303_counterexample :
  let o := authenticate Scenario.portal_login_303 Scenario.fresh in
  spec_redirect_status 303 = true /\
  _cookies (final o) !! "adminis" = Some "abc123" /\
  res o = Ok false.
Proof. vm_compute. auto. Qed.

(** ** The login step of a poll *)

(** C1, as amended: [get_data] raises exactly when it starts without a
    session and [authenticate] raises (the login page is not loaded with
    status 200, or the HTTP session fails); it then raises the same error,
    having called nothing but the login page.  When [authenticate] returns,
    be it with [False], the poll goes on to discovery and to the
    fetchers and returns a snapshot. *)
Theorem get_data_raises_iff_authenticate_raises fos up s :
  let a := authenticate up s in
  let o := get_data fos up s in
  (forall e, res o = Raise e <-> _authenticated s = false /\ res a = Raise e) /\
  (forall e, _authenticated s = false -> res a = Raise e ->
     final o = final a /\ log o = log a /\
     forallb is_login_call (log o) = true) /\
  (forall b, _authenticated s = false -> res a = Ok b ->
     res o = Ok (snapshot_of fos up (ready up (final a))) /\
     log o = (log a ++ discovery_calls (final a) ++
              poll_calls (_location_ids (ready up (final a))))%list).
Proof.
  intros a o. subst a o.
  destruct (_authenticated s) eqn:Ha.
  - rewrite get_data_run_authenticated by assumption; simpl.
    repeat split; try congruence.
    intros [? _]; congruence.
  - rewrite get_data_run_login by assumption; simpl.
    pose proof (authenticate_calls up s) as Hcalls.
    destruct (authenticate up s) as [[b|e] s' l]; simpl in *.
    + repeat split; try congruence.
      intros [_ ?]; congruence.
    + repeat split; try congruence; auto.
      intros [_ ?]; congruence.
Qed.

(** The login page answers 503: the poll raises, after one call. *)
Lemma get_data_raises_iff_authenticate_raises_witness :
  let o := get_data Decimal.float_of_str Scenario.portal_down Scenario.fresh in
  res o = Raise (LoginPageError 503) /\ log o = [CallLoginPage].
Proof.
  pose proof (get_data_raises_iff_authenticate_raises Decimal.float_of_str
                Scenario.portal_down Scenario.fresh) as H.
  cbv zeta in H. destruct H as [Hiff [Hlog _]].
  intros o. subst o. split.
  - apply Hiff. split; reflexivity.
  - destruct (Hlog (LoginPageError 503) eq_refl eq_refl) as [_ [Hl _]].
    rewrite Hl. reflexivity.
Defined.

(** C1, as stated, fails: the login form comes back with 200, so that
    [authenticate] returns [False]; the poll does not raise, it reads the
    dashboard and fetches, and the object is still not authenticated. *)
Lemma get_data_login_refused_counterexample :
  let s := Scenario.fresh in
  let o := get_data Decimal.float_of_str Scenario.portal_login_200 s in
  _authenticated s = false /\
  res (authenticate Scenario.portal_login_200 s) = Ok false /\
  is_raise (res o) = false /\
  _authenticated (final o) = false /\
  log o =
    [CallLoginPage; CallLoginSubmit (login_data s); CallDashboard;
     CallApi PendingPayments "16835"; CallApi PaymentHistory "16835";
     CallApi Counters "16835";
     CallApi PendingPayments "17012"; CallApi PaymentHistory "17012";
     CallApi Counters "17012"].
Proof. vm_compute. auto 6. Qed.

(** ** Splitting a label *)

Section Split.
Import PyStr.
#[local] Arguments startswith : simpl never.

Lemma startswith_cons a p c s :
  startswith (String a p) (String c s) =
  if Ascii.ascii_dec a c then startswith p s else false.
Proof. reflexivity. Qed.

Lemma startswith_nil s : startswith "" s = true.
Proof. destruct s; reflexivity. Qed.

Lemma startswith_char a c s :
  startswith (String a "") (String c s) = Ascii.eqb c a.
Proof.
  rewrite startswith_cons.
  destruct (Ascii.ascii_dec a c) as [->|N].
  - rewrite Ascii.eqb_refl. apply startswith_nil.
  - symmetry. apply Ascii.eqb_neq. congruence.
Qed.

Lemma split_from_skip sep s : forall k,
  split_from sep k s = split_from sep 0 (drop k s).
Proof.
  induction s as [|c s IH]; intros [|k]; try reflexivity.
  simpl drop. rewrite <- IH. reflexivity.
Qed.

Lemma split_head sep s : nth 0 (split sep s) "" = (split_from sep 0 s).1.
Proof. unfold split. destruct (split_from sep 0 s); reflexivity. Qed.

Lemma split_tail sep s d :
  nth 1 (split sep s) d = nth 0 (split_from sep 0 s).2 d.
Proof. unfold split. destruct (split_from sep 0 s); reflexivity. Qed.

(** The delimiter occurs exactly when there is a text after it. *)
Lemma contains_after_first sep s :
  contains sep s = match spec_after_first sep s with
                   | Some _ => true
                   | None => false
                   end.
Proof.
  induction s as [|c s IH]; simpl.
  - destruct (startswith sep ""); reflexivity.
  - destruct (startswith sep (String c s)); simpl; [reflexivity|exact IH].
Qed.

(** The second piece of [split] starts right after the first occurrence
    of the separator. *)
Lemma split_second c0 sep' s r :
  spec_after_first (String c0 sep') s = Some r ->
  nth 1 (split (String c0 sep') s) "" =
  (split_from (String c0 sep') 0 r).1.
Proof.
  set (sep := String c0 sep').
  induction s as [|c s IH]; intros Hr.
  - simpl in Hr. discriminate.
  - rewrite split_tail. simpl in Hr. simpl split_from.
    destruct (startswith sep (String c s)) eqn:Hp.
    + injection Hr as <-. simpl.
      rewrite Nat.sub_0_r, split_from_skip.
      destruct (split_from sep 0 (drop (String.length sep') s));
        reflexivity.
    + specialize (IH Hr). rewrite split_tail in IH.
      destruct (split_from sep 0 s) as [seg rest]; simpl in *. exact IH.
Qed.

(** Cutting at the next separator and then at the first comma is cutting
    at the first comma, for a separator that starts with a comma. *)
Lemma split_comma_head sep' r :
  (split_from "," 0 (split_from (String "," sep') 0 r).1).1 =
  spec_until "," r.
Proof.
  set (sep := String ","%char sep').
  induction r as [|c r IH]; [reflexivity|].
  simpl split_from.
  destruct (startswith sep (String c r)) eqn:Hp.
  - simpl. unfold sep in Hp. rewrite startswith_cons in Hp.
    destruct (Ascii.ascii_dec "," c) as [<-|N]; [reflexivity|discriminate].
  - destruct (split_from sep 0 r) as [seg rest] eqn:Hs. simpl in IH |- *.
    rewrite startswith_char.
    destruct (Ascii.eqb c ","); [reflexivity|].
    + destruct (split_from "," 0 seg) as [seg' rest'] eqn:Hs'.
      simpl in IH |- *. f_equal. exact IH.
Qed.

Lemma designator_spec label r :
  spec_after_first ", ap. " label = Some r ->
  designator label = spec_until "," r.
Proof.
  intros Hr. unfold designator.
  rewrite (split_second _ _ _ _ Hr), split_head.
  apply split_comma_head.
Qed.

(** The index used on the pieces exists whenever the code reads it. *)
Lemma split_second_exists sep s :
  sep <> "" -> contains sep s = true ->
  (2 <= List.length (split sep s))%nat.
Proof.
  intros Hne. unfold split.
  induction s as [|c s IH]; simpl.
  - destruct sep; [congruence|]. discriminate.
  - destruct (startswith sep (String c s)); simpl.
    + intros _.
      destruct (split_from sep (String.length sep - 1) s) as [a b].
      cbn [List.length]. lia.
    + intros H. specialize (IH H).
      destruct (split_from sep 0 s) as [a b].
      cbn [List.length] in *. lia.
Qed.

End Split.

(** C2, as amended: the designator is the text after the first ", ap. " up
    to the next comma; a label with the delimiter is a parking place when it
    contains "PARCARI" or its designator starts with "S", and an apartment
    otherwise; a label without the delimiter is unknown and has no
    designator, whether it contains "PARCARI" or not. *)
Theorem location_entry_classification loc_id label :
  apartment (location_entry loc_id label) = spec_designator label /\
  type (location_entry loc_id label) =
    match spec_designator label with
    | Some d =>
        if contains "PARCARI" label || startswith "S" d then Parking
        else Apartment
    | None => Unknown
    end.
Proof.
  unfold location_entry, spec_designator.
  rewrite contains_after_first.
  destruct (spec_after_first ", ap. " label) as [r|] eqn:Hr; simpl.
  - rewrite (designator_spec _ _ Hr). split; reflexivity.
  - split; reflexivity.
Qed.

(** C2, as stated, fails: a label with the marker token and without the
    delimiter is unknown, not a parking place. *)
Lemma location_entry_marker_only_counterexample :
  let label := "PARCARI Subsol, loc 7, Iasi" in
  contains "PARCARI" label = true /\
  contains ", ap. " label = false /\
  spec_classify label = Parking /\
  type (location_entry "17300" label) = Unknown.
Proof. vm_compute. auto. Qed.

(** ** Discovery *)

Lemma matched_ids_map html :
  matched_ids html = map match_id (Re.findall location_pattern html).
Proof. reflexivity. Qed.

Lemma scan_match_ids acc m :
  (scan_match acc m).1 =
  if bool_decide (match_id m ∈ acc.1) then acc.1
  else (acc.1 ++ [match_id m])%list.
Proof.
  unfold scan_match, match_id. case_bool_decide; reflexivity.
Qed.

(** The loop only appends. *)
Lemma scan_ids_prefix ms : forall acc,
  exists suffix, (fold_left scan_match ms acc).1 = (acc.1 ++ suffix)%list.
Proof.
  induction ms as [|m ms IH]; intros acc; simpl.
  - exists []. by rewrite app_nil_r.
  - destruct (IH (scan_match acc m)) as [suffix ->].
    rewrite scan_match_ids. case_bool_decide.
    + by exists suffix.
    + exists (match_id m :: suffix). by rewrite <- app_assoc.
Qed.

Lemma scan_ids_nodup ms : forall acc,
  NoDup acc.1 -> NoDup (fold_left scan_match ms acc).1.
Proof.
  induction ms as [|m ms IH]; intros acc Hnd; simpl; [assumption|].
  apply IH. rewrite scan_match_ids. case_bool_decide; [assumption|].
  apply NoDup_app. split; [assumption|]. split.
  - intros x Hx Hin. apply list_elem_of_singleton in Hin. congruence.
  - apply NoDup_singleton.
Qed.

Lemma scan_ids_elem ms : forall acc x,
  x ∈ (fold_left scan_match ms acc).1 <-> x ∈ acc.1 \/ x ∈ map match_id ms.
Proof.
  induction ms as [|m ms IH]; intros acc x; simpl.
  - split; [auto|]. intros [H|H]; [assumption|]. by apply elem_of_nil in H.
  - rewrite IH, scan_match_ids, elem_of_cons.
    case_bool_decide as Hin.
    + split; [tauto|]. intros [H|[->|H]]; tauto.
    + rewrite elem_of_app, list_elem_of_singleton. tauto.
Qed.

(** The ids that come before [x] in the result are those seen before the
    first occurrence of [x]. *)
Lemma scan_ids_order ms : forall acc pre x post,
  map match_id ms = (pre ++ x :: post)%list ->
  x ∉ pre -> x ∉ acc.1 ->
  exists before after,
    (fold_left scan_match ms acc).1 = (before ++ x :: after)%list /\
    forall y, y ∈ before <-> y ∈ acc.1 \/ y ∈ pre.
Proof.
  induction ms as [|m ms IH]; intros acc pre x post Hkeys Hpre Hacc.
  - destruct pre; discriminate.
  - simpl in Hkeys. destruct pre as [|k pre]; simpl in Hkeys.
    + injection Hkeys as Hk Hpost. simpl.
      destruct (scan_ids_prefix ms (scan_match acc m)) as [suffix ->].
      rewrite scan_match_ids, Hk. rewrite bool_decide_eq_false_2 by assumption.
      exists acc.1, suffix. split; [by rewrite <- app_assoc|].
      intros y. split; [auto|]. intros [H|H]; [assumption|].
      by apply elem_of_nil in H.
    + injection Hkeys as Hk Hrest. simpl.
      apply not_elem_of_cons in Hpre as [Hxk Hpre].
      destruct (IH (scan_match acc m) pre x post Hrest Hpre)
        as (before & after & -> & Hbefore).
      { rewrite scan_match_ids, Hk. case_bool_decide; [assumption|].
        rewrite elem_of_app, list_elem_of_singleton. tauto. }
      exists before, after. split; [reflexivity|].
      intros y. rewrite Hbefore, scan_match_ids, Hk, elem_of_cons.
      case_bool_decide as Hin.
      * split; [tauto|]. intros [H|[->|H]]; tauto.
      * rewrite elem_of_app, list_elem_of_singleton. tauto.
Qed.

Lemma scan_dashboard_ids html known :
  (scan_dashboard html known).1 =
  (fold_left scan_match (Re.findall location_pattern html) ([], known)).1.
Proof.
  unfold scan_dashboard.
  destruct (Re.search assoc_pattern html); reflexivity.
Qed.

Lemma dashboard_text_ok up cks response html :
  dashboard up cks = Ok response ->
  status response = 200 ->
  body response = Ok html ->
  dashboard_text up cks = Some html.
Proof.
  intros H1 H2 H3. unfold dashboard_text. by rewrite H1, H2, H3.
Qed.

Lemma discovered_ids_nodup up s : NoDup (discovered_ids up s).
Proof.
  unfold discovered_ids. destruct (dashboard_text up (_cookies s)).
  - rewrite scan_dashboard_ids. apply scan_ids_nodup. apply NoDup_nil_2.
  - apply NoDup_nil_2.
Qed.

(** C6: when the dashboard is read, the ids returned by discovery are
    distinct, they are the ids of the matches, and they come in the order
    of their first occurrence: the ids returned before [x] are exactly
    those matched before the first match of [x]. *)
Theorem discovery_once_in_first_seen_order up s response html :
  dashboard up (_cookies s) = Ok response ->
  status response = 200 ->
  body response = Ok html ->
  exists ids,
    res (_extract_location_ids up s) = Ok ids /\
    NoDup ids /\
    (forall x, x ∈ ids <-> x ∈ matched_ids html) /\
    (forall pre x post,
       matched_ids html = (pre ++ x :: post)%list -> x ∉ pre ->
       exists before after,
         ids = (before ++ x :: after)%list /\
         forall y, y ∈ before <-> y ∈ pre).
Proof.
  intros H1 H2 H3.
  pose proof (dashboard_text_ok _ _ _ _ H1 H2 H3) as Ht.
  exists (discovered_ids up s). rewrite extract_run; simpl.
  split; [reflexivity|]. split; [apply discovered_ids_nodup|].
  unfold discovered_ids. rewrite Ht, scan_dashboard_ids, matched_ids_map.
  split.
  - intros x. rewrite scan_ids_elem; simpl. split; [|auto].
    intros [H|H]; [by apply elem_of_nil in H|assumption].
  - intros pre x post Hk Hpre.
    destruct (scan_ids_order _ ([], _location_info s) pre x post Hk Hpre)
      as (before & after & Heq & Hb).
    { simpl. apply not_elem_of_nil. }
    exists before, after. split; [exact Heq|].
    intros y. rewrite Hb; simpl. split; [|auto].
    intros [H|H]; [by apply elem_of_nil in H|assumption].
Qed.

(** The id 16835 is matched twice and returned once, before 17012. *)
Lemma discovery_once_in_first_seen_order_witness :
  let up :=
    {| login_page := Scenario.ok tt;
       login_submit := fun _ _ => Scenario.ok tt;
       dashboard := fun _ => Scenario.ok Scenario.markup_repeated;
       api := Scenario.answers |} in
  matched_ids Scenario.markup_repeated = ["16835"; "16835"; "17012"] /\
  exists ids,
    res (_extract_location_ids up Scenario.fresh) = Ok ids /\
    NoDup ids /\
    forall x, x ∈ ids <-> x ∈ matched_ids Scenario.markup_repeated.
Proof.
  intros up. split; [vm_compute; reflexivity|].
  destruct (discovery_once_in_first_seen_order up Scenario.fresh
              (Response 200 ∅ (Ok Scenario.markup_repeated))
              Scenario.markup_repeated eq_refl eq_refl eq_refl)
    as (ids & Hres & Hnd & Helem & _).
  exists ids. auto.
Defined.

(** ** The object between polls *)

Lemma set_location_info_same s : set_location_info (_location_info s) s = s.
Proof. destruct s; reflexivity. Qed.

Lemma set_location_ids_same s : set_location_ids (_location_ids s) s = s.
Proof. destruct s; reflexivity. Qed.

(** A page without a match leaves the object as it was. *)
Lemma scan_dashboard_no_match html known :
  Re.findall location_pattern html = [] ->
  scan_dashboard html known = ([], known).
Proof.
  intros H. unfold scan_dashboard. rewrite H; simpl.
  destruct (Re.search assoc_pattern html); reflexivity.
Qed.

Lemma scan_dashboard_no_id html known :
  (scan_dashboard html known).1 = [] ->
  Re.findall location_pattern html = [].
Proof.
  rewrite scan_dashboard_ids.
  destruct (Re.findall location_pattern html) as [|m ms]; [reflexivity|].
  simpl. destruct (scan_ids_prefix ms (scan_match ([], known) m)) as [x ->].
  rewrite scan_match_ids; simpl. discriminate.
Qed.

Lemma discovered_nothing up s :
  discovered_ids up s = [] -> discovered up s = s.
Proof.
  unfold discovered_ids, discovered.
  destruct (dashboard_text up (_cookies s)) as [html|]; [|reflexivity].
  intros H. apply scan_dashboard_no_id in H.
  rewrite scan_dashboard_no_match by assumption. simpl.
  apply set_location_info_same.
Qed.

Lemma discovered_location_ids up s :
  _location_ids (discovered up s) = _location_ids s.
Proof.
  unfold discovered. destruct (dashboard_text up (_cookies s)); reflexivity.
Qed.

Lemma discovered_authenticated up s :
  _authenticated (discovered up s) = _authenticated s.
Proof.
  unfold discovered. destruct (dashboard_text up (_cookies s)); reflexivity.
Qed.

Lemma ready_authenticated up s :
  _authenticated (ready up s) = _authenticated s.
Proof.
  unfold ready. destruct (_location_ids s); [|reflexivity].
  simpl. apply discovered_authenticated.
Qed.

Lemma ready_nodup up s :
  NoDup (_location_ids s) -> NoDup (_location_ids (ready up s)).
Proof.
  intros H. unfold ready. destruct (_location_ids s) eqn:E.
  - simpl. apply discovered_ids_nodup.
  - rewrite E. exact H.
Qed.

(** Once the loop has started from an object, a second poll starts it from
    the same object. *)
Lemma ready_idempotent up s : ready up (ready up s) = ready up s.
Proof.
  destruct (_location_ids s) as [|l ls] eqn:E.
  - destruct (discovered_ids up s) as [|i more] eqn:D.
    + assert (Hs : ready up s = s).
      { unfold ready. rewrite E, D, (discovered_nothing _ _ D), <- E.
        apply set_location_ids_same. }
      rewrite Hs. exact Hs.
    + assert (Hs : ready up s =
                   set_location_ids (i :: more) (discovered up s)).
      { unfold ready. rewrite E, D. reflexivity. }
      rewrite Hs. reflexivity.
  - assert (Hs : ready up s = s) by (unfold ready; rewrite E; reflexivity).
    rewrite Hs. exact Hs.
Qed.

Lemma get_data_final fos up s :
  final (get_data fos up s) =
  if _authenticated s then ready up s
  else
    match res (authenticate up s) with
    | Ok _ => ready up (final (authenticate up s))
    | Raise _ => final (authenticate up s)
    end.
Proof.
  destruct (_authenticated s) eqn:Ha.
  - rewrite get_data_run_authenticated by assumption. reflexivity.
  - rewrite get_data_run_login by assumption. simpl.
    destruct (res (authenticate up s)); reflexivity.
Qed.

Lemma get_locations_final up s :
  final (get_locations up s) =
  if _authenticated s then ready up s
  else
    match res (authenticate up s) with
    | Ok _ => ready up (final (authenticate up s))
    | Raise _ => final (authenticate up s)
    end.
Proof.
  assert (Hrest : forall s0,
    final ((s1 <- self ;;
            match _location_ids s1 with
            | [] =>
                ids <- _extract_location_ids up ;;
                assign (set_location_ids ids) ;; ret ids
            | ids => ret ids
            end) s0) = ready up s0).
  { intros s0. erewrite bind_ok by reflexivity. simpl.
    unfold ready. destruct (_location_ids s0); [|reflexivity].
    erewrite bind_ok by apply extract_run. reflexivity. }
  unfold get_locations.
  erewrite bind_ok by reflexivity. simpl.
  destruct (_authenticated s); simpl.
  - apply Hrest.
  - destruct (authenticate up s) as [[b|e] s' l] eqn:Hau; simpl.
    + erewrite bind_ok; cycle 1.
      { erewrite bind_ok by apply Hau. reflexivity. }
      simpl. apply Hrest.
    + erewrite bind_raise; [reflexivity|].
      erewrite bind_raise by apply Hau. reflexivity.
Qed.

Lemma get_billing_info_final fos up s :
  final (get_billing_info fos up s) =
  if _authenticated s then final (get_data fos up s)
  else
    match res (authenticate up s) with
    | Ok _ => final (get_data fos up (final (authenticate up s)))
    | Raise _ => final (authenticate up s)
    end.
Proof.
  assert (Hrest : forall s0,
    final ((data <- get_data fos up ;; ret (summary data)) s0) =
    final (get_data fos up s0)).
  { intros s0. unfold bind.
    destruct (get_data fos up s0) as [[d|e] s1 l]; reflexivity. }
  unfold get_billing_info.
  erewrite bind_ok by reflexivity. cbn [final].
  destruct (_authenticated s); cbn [negb].
  - erewrite bind_ok by reflexivity. cbn [final]. apply Hrest.
  - destruct (authenticate up s) as [[b|e] s' l] eqn:Hau; cbn [res final].
    + erewrite bind_ok; cycle 1.
      { erewrite bind_ok by apply Hau. reflexivity. }
      cbn [final]. apply Hrest.
    + erewrite bind_raise; [reflexivity|].
      erewrite bind_raise by apply Hau. reflexivity.
Qed.

Lemma get_data_nodup fos up s :
  NoDup (_location_ids s) -> NoDup (_location_ids (final (get_data fos up s))).
Proof.
  intros H. rewrite get_data_final.
  destruct (_authenticated s); [by apply ready_nodup|].
  destruct (res (authenticate up s)).
  - apply ready_nodup. by rewrite authenticate_location_ids.
  - by rewrite authenticate_location_ids.
Qed.

(** No method stores an id twice. *)
Lemma reachable_nodup s : reachable s -> NoDup (_location_ids s).
Proof.
  induction 1 as [u p|up s _ IH|fos up s _ IH|up s _ IH|fos up s _ IH].
  - apply NoDup_nil_2.
  - by rewrite authenticate_location_ids.
  - by apply get_data_nodup.
  - rewrite get_locations_final.
    destruct (_authenticated s); [by apply ready_nodup|].
    destruct (res (authenticate up s)).
    + apply ready_nodup. by rewrite authenticate_location_ids.
    + by rewrite authenticate_location_ids.
  - rewrite get_billing_info_final.
    destruct (_authenticated s); [by apply get_data_nodup|].
    destruct (res (authenticate up s)).
    + apply get_data_nodup. by rewrite authenticate_location_ids.
    + by rewrite authenticate_location_ids.
Qed.

Lemma logged_nodup up s :
  NoDup (_location_ids s) -> NoDup (_location_ids (logged up s)).
Proof.
  intros H. unfold logged. destruct (_authenticated s); [assumption|].
  by rewrite authenticate_location_ids.
Qed.

(** ** The loop over the locations *)

Section Loop.
Variable fos : string -> option spec_float.
Variable up : Portal.
Variable cks : gmap string string.
Variable known : gmap string LocationInfo.

#[local] Abbreviation step := (polled_location fos up cks known).
#[local] Abbreviation loop := (polled fos up cks known).

Lemma polled_cons loc ids acc : loop (loc :: ids) acc = loop ids (step acc loc).
Proof. reflexivity. Qed.

Lemma polled_app l1 l2 acc : loop (l1 ++ l2)%list acc = loop l2 (loop l1 acc).
Proof. apply fold_left_app. Qed.

Lemma polled_dom ids : forall acc,
  dom (loop ids acc).1 = list_to_set ids ∪ dom acc.1.
Proof.
  induction ids as [|loc ids IH]; intros acc.
  - simpl. set_solver.
  - rewrite polled_cons, IH. simpl. rewrite dom_insert_L. set_solver.
Qed.

Lemma polled_lookup_other ids loc : forall acc,
  loc ∉ ids -> (loop ids acc).1 !! loc = acc.1 !! loc.
Proof.
  induction ids as [|l ids IH]; intros acc Hnot; [reflexivity|].
  apply not_elem_of_cons in Hnot as [Hne Hnot].
  rewrite polled_cons, IH by assumption. simpl.
  by rewrite lookup_insert_ne.
Qed.

(** A last payment, once found, is kept. *)
Lemma history_value_keeps loc c r :
  (history_value fos loc (Some c) r).2 = Some c.
Proof.
  unfold history_value. destruct r as [b|e]; [|reflexivity].
  destruct (latest_record b) as [[latest|]|e]; reflexivity.
Qed.

Lemma polled_last ids : forall acc,
  (loop ids acc).2 =
  match acc.2 with
  | Some c => Some c
  | None => first_offer fos up cks ids
  end.
Proof.
  induction ids as [|loc ids IH]; intros acc.
  - simpl. destruct acc.2; reflexivity.
  - rewrite polled_cons, IH. simpl.
    destruct acc.2 as [c|].
    + rewrite history_value_keeps. reflexivity.
    + fold (offered fos up cks loc).
      destruct (offered fos up cks loc); reflexivity.
Qed.

(** The dictionary of a location that is polled once. *)
Lemma polled_lookup pre loc post acc :
  loc ∉ post ->
  (loop (pre ++ loc :: post)%list acc).1 !! loc =
  Some {| info := known !! loc;
          pending_payments :=
            pending_value (fetched up cks PendingPayments loc);
          payment_history :=
            (history_value fos loc (loop pre acc).2
               (fetched up cks PaymentHistory loc)).1;
          counters := counters_value (fetched up cks Counters loc) |}.
Proof.
  intros Hpost. rewrite polled_app, polled_cons.
  rewrite polled_lookup_other by assumption. simpl.
  by rewrite lookup_insert_eq.
Qed.

Lemma polled_size ids :
  NoDup ids -> size (loop ids (∅, None)).1 = List.length ids.
Proof.
  intros Hnd. rewrite <- size_dom, polled_dom. simpl.
  rewrite dom_empty_L, (right_id_L ∅ (∪)).
  by apply size_list_to_set.
Qed.

Lemma polled_entries ids loc :
  is_Some ((loop ids (∅, None)).1 !! loc) <-> loc ∈ ids.
Proof.
  rewrite <- elem_of_dom, polled_dom. simpl. set_solver.
Qed.

End Loop.

(** ** The snapshot *)

(** C8: in every snapshot that a poll returns, from an object the
    integration can hold, "location_count" is the number of entries of
    "locations" and "total_pending" is [0.0]. *)
Theorem snapshot_count_and_pending fos up s snap :
  reachable s ->
  res (get_data fos up s) = Ok snap ->
  location_count (summary snap) = size (locations snap) /\
  total_pending (summary snap) = Py.zero.
Proof.
  intros Hreach Hres. apply reachable_nodup in Hreach.
  assert (Hsnap : exists s', NoDup (_location_ids s') /\
                             snap = snapshot_of fos up s').
  { destruct (_authenticated s) eqn:Ha.
    - rewrite get_data_run_authenticated in Hres by assumption.
      injection Hres as <-. exists (ready up s).
      split; [by apply ready_nodup|reflexivity].
    - rewrite get_data_run_login in Hres by assumption. simpl in Hres.
      destruct (res (authenticate up s)) eqn:Hau; [|discriminate].
      injection Hres as <-. exists (ready up (final (authenticate up s))).
      split; [|reflexivity].
      apply ready_nodup. by rewrite authenticate_location_ids. }
  destruct Hsnap as (s' & Hnd & ->). unfold snapshot_of; simpl.
  split; [|reflexivity]. symmetry. by apply polled_size.
Qed.

(** The scenario of the specification: two locations, two entries. *)
Lemma snapshot_count_and_pending_witness :
  exists snap,
    res (get_data Decimal.float_of_str Scenario.portal Scenario.fresh) = Ok snap /\
    location_count (summary snap) = 2%nat /\
    size (locations snap) = 2%nat /\
    total_pending (summary snap) = Py.zero.
Proof.
  pose (o := get_data Decimal.float_of_str Scenario.portal Scenario.fresh).
  assert (Hres : res o = Ok (snapshot_of Decimal.float_of_str Scenario.portal
                               (final o))).
  { vm_compute. reflexivity. }
  eexists. split; [exact Hres|].
  destruct (snapshot_count_and_pending _ _ _ _
              (reach_init "user@example.org" "secret") Hres) as [Hc Hp].
  split; [|split; [rewrite <- Hc|exact Hp]]; vm_compute; reflexivity.
Defined.

(** C9: with a session, a second poll against the same portal returns the
    snapshot of the first one. *)
Theorem get_data_twice fos up s :
  _authenticated s = true ->
  exists snap,
    res (get_data fos up s) = Ok snap /\
    res (get_data fos up (final (get_data fos up s))) = Ok snap.
Proof.
  intros Ha. exists (snapshot_of fos up (ready up s)).
  rewrite get_data_run_authenticated by assumption. cbn [res final].
  split; [reflexivity|].
  rewrite get_data_run_authenticated by (by rewrite ready_authenticated).
  cbn [res]. by rewrite ready_idempotent.
Qed.

Lemma get_data_twice_witness :
  let s := final (authenticate Scenario.portal Scenario.fresh) in
  exists snap,
    res (get_data Decimal.float_of_str Scenario.portal s) = Ok snap /\
    res (get_data Decimal.float_of_str Scenario.portal
           (final (get_data Decimal.float_of_str Scenario.portal s))) = Ok snap /\
    location_count (summary snap) = 2%nat.
Proof.
  intros s.
  destruct (get_data_twice Decimal.float_of_str Scenario.portal s eq_refl)
    as (snap & H1 & H2).
  exists snap. split; [exact H1|]. split; [exact H2|].
  rewrite get_data_run_authenticated in H1 by reflexivity.
  injection H1 as <-. vm_compute. reflexivity.
Defined.

(** ** A dashboard without locations *)

Lemma extract_nothing up s :
  dashboard_text up (_cookies s) = None \/
  (exists html, dashboard_text up (_cookies s) = Some html /\
                Re.findall location_pattern html = []) ->
  _extract_location_ids up s = Outcome (Ok []) s [CallDashboard].
Proof.
  intros H. rewrite extract_run. unfold discovered_ids, discovered.
  destruct H as [->|(html & -> & Hnone)]; [reflexivity|].
  rewrite scan_dashboard_no_match by assumption. simpl.
  by rewrite set_location_info_same.
Qed.

(** C7: discovery never raises; when the dashboard cannot be read (the call
    raises, the status is not 200, the body cannot be decoded) or its markup
    has no match of the pattern, as the empty markup, discovery returns the
    empty list and leaves the object as it was; and a poll that gets past
    the login step with no location known and finds none returns the empty
    snapshot, after one call of the dashboard. *)
Theorem discovery_empty_and_empty_snapshot fos up s :
  (exists ids, res (_extract_location_ids up s) = Ok ids) /\
  (dashboard_text up (_cookies s) = None \/
   (exists html, dashboard_text up (_cookies s) = Some html /\
                 Re.findall location_pattern html = []) ->
   _extract_location_ids up s = Outcome (Ok []) s [CallDashboard]) /\
  Re.findall location_pattern "" = [] /\
  (_authenticated s = true \/ (exists b, res (authenticate up s) = Ok b) ->
   _location_ids s = [] ->
   res (_extract_location_ids up (logged up s)) = Ok [] ->
   res (get_data fos up s) = Ok empty_snapshot /\
   log (get_data fos up s) =
     ((if _authenticated s then [] else log (authenticate up s)) ++
      [CallDashboard])%list /\
   _location_ids (final (get_data fos up s)) = []).
Proof.
  split; [|split; [|split]].
  - rewrite extract_run. eauto.
  - apply extract_nothing.
  - reflexivity.
  - intros Hlogin Hids Hnone. unfold logged in Hnone.
    rewrite extract_run in Hnone. simpl in Hnone. injection Hnone as Hnone.
    destruct (_authenticated s) eqn:Ha.
    + rewrite get_data_run_authenticated by assumption. cbn [res log final].
      assert (Hr : _location_ids (ready up s) = []).
      { unfold ready. rewrite Hids. simpl. exact Hnone. }
      rewrite Hr, snapshot_of_no_location by assumption.
      unfold discovery_calls. rewrite Hids. auto.
    + destruct Hlogin as [?|[b Hb]]; [discriminate|].
      rewrite get_data_run_login by assumption. cbn zeta. rewrite Hb.
      cbn [res log final].
      pose proof (authenticate_location_ids up s) as Hsame.
      rewrite Hids in Hsame.
      assert (Hr : _location_ids (ready up (final (authenticate up s))) = []).
      { unfold ready. rewrite Hsame. simpl. exact Hnone. }
      rewrite Hr, snapshot_of_no_location by assumption.
      unfold discovery_calls. rewrite Hsame. auto.
Qed.

(** A new account: the login succeeds and the dashboard lists nothing. *)
Lemma discovery_empty_and_empty_snapshot_witness :
  let o := get_data Decimal.float_of_str Scenario.portal_new_account
             Scenario.fresh in
  res o = Ok empty_snapshot /\
  log o = [CallLoginPage; CallLoginSubmit (login_data Scenario.fresh);
           CallDashboard].
Proof.
  destruct (discovery_empty_and_empty_snapshot Decimal.float_of_str
              Scenario.portal_new_account Scenario.fresh)
    as (_ & _ & _ & H).
  destruct H as (Hres & Hlog & _).
  - right. exists true. vm_compute. reflexivity.
  - reflexivity.
  - vm_compute. reflexivity.
  - split; [exact Hres|]. rewrite Hlog. vm_compute. reflexivity.
Defined.

(** ** What a poll returns *)

Lemma get_data_returns fos up s :
  _authenticated s = true \/ (exists b, res (authenticate up s) = Ok b) ->
  res (get_data fos up s) = Ok (snapshot_of fos up (ready up (logged up s))).
Proof.
  intros Hlogin. unfold logged. destruct (_authenticated s) eqn:Ha.
  - by rewrite get_data_run_authenticated.
  - destruct Hlogin as [?|[b Hb]]; [discriminate|].
    rewrite get_data_run_login by assumption. cbn zeta. by rewrite Hb.
Qed.

Section Offers.
Variable fos : string -> option spec_float.
Variable up : Portal.
Variable cks : gmap string string.

Lemma first_offer_app l1 l2 :
  first_offer fos up cks (l1 ++ l2)%list =
  match first_offer fos up cks l1 with
  | Some c => Some c
  | None => first_offer fos up cks l2
  end.
Proof.
  induction l1 as [|l l1 IH]; simpl; [reflexivity|].
  destruct (offered fos up cks l); [reflexivity|exact IH].
Qed.

Lemma first_offer_none ids :
  first_offer fos up cks ids = None <->
  forall loc, loc ∈ ids -> offered fos up cks loc = None.
Proof.
  induction ids as [|l ids IH]; simpl.
  - split; [|reflexivity]. intros _ loc H. by apply elem_of_nil in H.
  - destruct (offered fos up cks l) eqn:Hl.
    + split; [discriminate|]. intros H.
      rewrite <- Hl. apply H, elem_of_cons. by left.
    + rewrite IH. split.
      * intros H loc Hin. apply elem_of_cons in Hin as [->|Hin]; auto.
      * intros H loc Hin. apply H, elem_of_cons. by right.
Qed.

Lemma first_offer_some ids c :
  first_offer fos up cks ids = Some c <->
  exists pre loc post,
    ids = (pre ++ loc :: post)%list /\
    (forall l, l ∈ pre -> offered fos up cks l = None) /\
    offered fos up cks loc = Some c.
Proof.
  split.
  - induction ids as [|l ids IH]; simpl; [discriminate|].
    destruct (offered fos up cks l) as [c'|] eqn:Hl.
    + intros [= ->]. exists [], l, ids. split; [reflexivity|].
      split; [|assumption]. intros l' H. by apply elem_of_nil in H.
    + intros H. destruct (IH H) as (pre & loc & post & -> & Hpre & Hloc).
      exists (l :: pre), loc, post. split; [reflexivity|].
      split; [|assumption].
      intros l' Hin. apply elem_of_cons in Hin as [->|Hin]; auto.
  - intros (pre & loc & post & -> & Hpre & Hloc).
    rewrite first_offer_app. apply first_offer_none in Hpre.
    rewrite Hpre. simpl. by rewrite Hloc.
Qed.

(** A location has a candidate when its history was fetched, has a first
    record, and the record converts. *)
Lemma offered_some loc c :
  offered fos up cks loc = Some c <->
  exists body latest,
    fetched up cks PaymentHistory loc = Ok body /\
    latest_record body = Ok (Some latest) /\
    candidate fos loc latest = Ok c.
Proof.
  unfold offered, history_value.
  destruct (fetched up cks PaymentHistory loc) as [body|e]; simpl.
  - destruct (latest_record body) as [[latest|]|e] eqn:Hl; simpl.
    + destruct (candidate fos loc latest) as [c'|e] eqn:Hc; simpl.
      * split.
        -- intros [= ->]. exists body, latest. auto.
        -- intros (b & l & [= <-] & Hl' & H). congruence.
      * split; [discriminate|].
        intros (b & l & [= <-] & Hl' & H). congruence.
    + split; [discriminate|].
      intros (b & l & [= <-] & Hl' & _). congruence.
    + split; [discriminate|].
      intros (b & l & [= <-] & Hl' & _). congruence.
  - split; [discriminate|]. intros (b & l & H & _). discriminate.
Qed.

(** The value stored for a resource of a location. *)
Lemma field_raise loc last known r :
  is_raise (fetched up cks r loc) = true ->
  field r
    {| info := known;
       pending_payments := pending_value (fetched up cks PendingPayments loc);
       payment_history :=
         (history_value fos loc last (fetched up cks PaymentHistory loc)).1;
       counters := counters_value (fetched up cks Counters loc) |} = JNull.
Proof.
  destruct r; simpl;
    (destruct (fetched up cks _ loc); [discriminate|reflexivity]).
Qed.

Lemma field_conforms loc last known r body :
  fetched up cks r loc = Ok body ->
  conforms fos r loc body ->
  field r
    {| info := known;
       pending_payments := pending_value (fetched up cks PendingPayments loc);
       payment_history :=
         (history_value fos loc last (fetched up cks PaymentHistory loc)).1;
       counters := counters_value (fetched up cks Counters loc) |} = body.
Proof.
  destruct r; simpl; intros -> Hc; simpl.
  - by rewrite Hc.
  - destruct Hc as [->|(latest & c & -> & ->)].
    + destruct last; reflexivity.
    + destruct last; reflexivity.
  - reflexivity.
Qed.

End Offers.

(** C3, as amended: in a poll that gets past the login step, a fetch that
    fails for a location does not make the poll raise; the snapshot has an
    entry for each of the N locations and no other; the field of the failed
    fetch is null; and each resource of that location whose fetch succeeds
    is stored as fetched provided the processing that follows the fetch in
    the same [try] does not raise on the body. *)
Theorem failed_fetch_is_isolated fos up s loc0 r0 :
  reachable s ->
  _authenticated s = true \/ (exists b, res (authenticate up s) = Ok b) ->
  let s' := ready up (logged up s) in
  loc0 ∈ _location_ids s' ->
  is_raise (fetched up (_cookies s') r0 loc0) = true ->
  exists snap d,
    res (get_data fos up s) = Ok snap /\
    (forall loc, is_Some (locations snap !! loc) <-> loc ∈ _location_ids s') /\
    size (locations snap) = List.length (_location_ids s') /\
    locations snap !! loc0 = Some d /\
    field r0 d = JNull /\
    (forall r body,
       fetched up (_cookies s') r loc0 = Ok body ->
       conforms fos r loc0 body ->
       field r d = body).
Proof.
  intros Hreach Hlogin s' Hin Hfail.
  assert (Hnd : NoDup (_location_ids s')).
  { apply ready_nodup, logged_nodup, reachable_nodup, Hreach. }
  destruct (list_elem_of_split _ _ Hin) as (pre & post & Hsplit).
  assert (Hpost : loc0 ∉ post).
  { rewrite Hsplit in Hnd. apply NoDup_app in Hnd as (_ & _ & Hnd).
    by apply NoDup_cons in Hnd as [? _]. }
  eexists. eexists. split; [by apply get_data_returns|].
  fold s'. unfold snapshot_of. cbn [locations].
  split; [apply polled_entries|]. split; [by apply polled_size|].
  rewrite Hsplit at 1. rewrite polled_lookup by assumption.
  split; [reflexivity|]. split.
  - by apply field_raise.
  - intros r body Hok Hc. by apply field_conforms.
Qed.

(** The counters of 16835 answer 500: its two other fields are stored as
    fetched, the location 17012 is there as well. *)
Lemma failed_fetch_is_isolated_witness :
  let up := Scenario.portal_with Scenario.history_16835 in
  exists snap d,
    res (get_data Decimal.float_of_str up Scenario.fresh) = Ok snap /\
    size (locations snap) = 2%nat /\
    locations snap !! "16835" = Some d /\
    counters d = JNull /\
    pending_payments d = Scenario.pending_body /\
    payment_history d = Scenario.history_16835.
Proof.
  intros up.
  destruct (failed_fetch_is_isolated Decimal.float_of_str up Scenario.fresh
              "16835" Counters (reach_init _ _))
    as (snap & d & Hres & _ & Hsize & Hd & Hnull & Hother).
  - right. exists true. vm_compute. reflexivity.
  - vm_compute. apply elem_of_cons. by left.
  - vm_compute. reflexivity.
  - exists snap, d. split; [exact Hres|]. split; [exact Hsize|].
    split; [exact Hd|]. split; [exact Hnull|]. split.
    + apply (Hother PendingPayments); vm_compute; reflexivity.
    + apply (Hother PaymentHistory); [vm_compute; reflexivity|].
      right. eexists. eexists. vm_compute. split; reflexivity.
Defined.

(** C3, as stated, fails: only the counters of 16835 fail, the history of
    16835 is fetched, and its field is null all the same, because the amount
    of its first record is [null]. *)
Lemma failed_fetch_other_field_counterexample :
  let up := Scenario.portal_with Scenario.history_null_amount in
  let o := get_data Decimal.float_of_str up Scenario.fresh in
  let cks := _cookies (final o) in
  let entry := match res o with
               | Ok snap => locations snap !! "16835"
               | Raise _ => None
               end in
  _location_ids (final o) = ["16835"; "17012"] /\
  is_raise (fetched up cks Counters "16835") = true /\
  fetched up cks PendingPayments "16835" = Ok Scenario.pending_body /\
  fetched up cks PaymentHistory "16835" = Ok Scenario.history_null_amount /\
  is_raise (fetched up cks PendingPayments "17012") = false /\
  is_raise (fetched up cks PaymentHistory "17012") = false /\
  is_raise (fetched up cks Counters "17012") = false /\
  counters <$> entry = Some JNull /\
  pending_payments <$> entry = Some Scenario.pending_body /\
  payment_history <$> entry = Some JNull.
Proof. vm_compute. repeat split; reflexivity. Qed.

(** ** The last payment of the summary *)

Lemma snapshot_last_payment fos up s :
  last_payment (summary (snapshot_of fos up s)) =
  first_offer fos up (_cookies s) (_location_ids s).
Proof. unfold snapshot_of. cbn [summary last_payment]. by rewrite polled_last. Qed.

(** C4, as amended: in a poll that gets past the login step, the three
    "last_payment" keys of the summary come from the first location, in the
    order of the location list, that puts a candidate forward, and they are
    absent when no location does.  A location puts a candidate forward when
    its history was fetched, has a first record, and the dictionary of
    lines 238 to 242 can be built from that record: the record is an object
    and its "amount", 0 when absent, converts with [float()].  No maximum
    by date is taken. *)
Theorem last_payment_from_first_candidate fos up s :
  _authenticated s = true \/ (exists b, res (authenticate up s) = Ok b) ->
  let s' := ready up (logged up s) in
  let cks := _cookies s' in
  exists snap,
    res (get_data fos up s) = Ok snap /\
    (last_payment (summary snap) = None <->
     forall loc, loc ∈ _location_ids s' -> offered fos up cks loc = None) /\
    (forall c,
       last_payment (summary snap) = Some c <->
       exists pre loc post,
         _location_ids s' = (pre ++ loc :: post)%list /\
         (forall l, l ∈ pre -> offered fos up cks l = None) /\
         offered fos up cks loc = Some c) /\
    (forall loc c,
       offered fos up cks loc = Some c <->
       exists body latest,
         fetched up cks PaymentHistory loc = Ok body /\
         latest_record body = Ok (Some latest) /\
         candidate fos loc latest = Ok c).
Proof.
  intros Hlogin s' cks. eexists. split; [by apply get_data_returns|].
  fold s'. rewrite snapshot_last_payment. fold cks.
  split; [apply first_offer_none|].
  split; [intros c; apply first_offer_some|].
  intros loc c. apply offered_some.
Qed.

(** The scenario of the specification: the history of 16835 has one record
    of 862.12 on 30.01.2026, the history of 17012 is empty. *)
Lemma last_payment_from_first_candidate_witness :
  exists snap,
    res (get_data Decimal.float_of_str Scenario.portal Scenario.fresh) =
      Ok snap /\
    last_payment (summary snap) =
      Some {| amount := Py.float_of_decimal 86212 2;
              date := JStr "30.01.2026";
              location_id := "16835" |}.
Proof.
  destruct (last_payment_from_first_candidate Decimal.float_of_str
              Scenario.portal Scenario.fresh)
    as (snap & Hres & _ & Hsome & _).
  - right. exists true. vm_compute. reflexivity.
  - exists snap. split; [exact Hres|].
    apply Hsome. exists [], "16835", ["17012"].
    split; [vm_compute; reflexivity|]. split.
    + intros l H. by apply elem_of_nil in H.
    + vm_compute. reflexivity.
Defined.

(** C4, as stated, fails: 16835 is the first location whose history is
    fetched with a record, yet the summary takes the record of 17012,
    because the amount of the record of 16835 is [null]. *)
Lemma last_payment_skips_location_counterexample :
  let up := Scenario.portal_with Scenario.history_null_amount in
  let o := get_data Decimal.float_of_str up Scenario.fresh in
  let cks := _cookies (final o) in
  _location_ids (final o) = ["16835"; "17012"] /\
  fetched up cks PaymentHistory "16835" = Ok Scenario.history_null_amount /\
  latest_record Scenario.history_null_amount =
    Ok (Some (JObject [("amount", JNull); ("date", JStr "15.01.2026")])) /\
  match res o with
  | Ok snap => location_id <$> last_payment (summary snap)
  | Raise _ => None
  end = Some "17012".
Proof. vm_compute. repeat split; reflexivity. Qed.

(** ** An amount that does not convert *)

Lemma latest_record_first body fields more :
  Py.get body "results" JNull = Ok (JList (JObject fields :: more)) ->
  latest_record body = Ok (Some (JObject fields)).
Proof.
  intros Hget. unfold latest_record. rewrite Hget. simpl.
  destruct body; try discriminate. simpl in *.
  destruct (Py.assoc "results" fields0) as [v|]; [|discriminate].
  injection Hget as ->. reflexivity.
Qed.

(** C10: in a poll from an object the integration can hold, take a location
    whose history is fetched with at least one record, the first record
    being an object, while no location before it has put a candidate
    forward.  If the record has an "amount" that [float()] rejects, the
    "payment_history" of the location is null in the snapshot.  If the
    record has no "amount", the history is stored as fetched and the
    summary takes the amount [0.0], with the date of the record. *)
Theorem unconvertible_amount_nulls_history
    fos up s pre loc post body fields more :
  reachable s ->
  _authenticated s = true \/ (exists b, res (authenticate up s) = Ok b) ->
  let s' := ready up (logged up s) in
  let cks := _cookies s' in
  _location_ids s' = (pre ++ loc :: post)%list ->
  (forall l, l ∈ pre -> offered fos up cks l = None) ->
  fetched up cks PaymentHistory loc = Ok body ->
  Py.get body "results" JNull = Ok (JList (JObject fields :: more)) ->
  exists snap d,
    res (get_data fos up s) = Ok snap /\
    locations snap !! loc = Some d /\
    (forall v, Py.assoc "amount" fields = Some v ->
               is_raise (Py.float fos v) = true ->
               payment_history d = JNull) /\
    (Py.assoc "amount" fields = None ->
     payment_history d = body /\
     last_payment (summary snap) =
       Some {| amount := Py.zero;
               date := match Py.assoc "date" fields with
                       | Some v => v
                       | None => JStr ""
                       end;
               location_id := loc |}).
Proof.
  intros Hreach Hlogin s' cks Hsplit Hpre Hbody Hresults.
  assert (Hnd : NoDup (_location_ids s')).
  { apply ready_nodup, logged_nodup, reachable_nodup, Hreach. }
  assert (Hpost : loc ∉ post).
  { rewrite Hsplit in Hnd. apply NoDup_app in Hnd as (_ & _ & Hnd).
    by apply NoDup_cons in Hnd as [? _]. }
  apply first_offer_none in Hpre.
  pose proof (latest_record_first _ _ _ Hresults) as Hlatest.
  eexists. eexists. split; [by apply get_data_returns|].
  fold s'. split.
  { unfold snapshot_of. cbn [locations]. fold cks. rewrite Hsplit.
    by apply polled_lookup. }
  cbn [payment_history]. rewrite polled_last. cbn [snd]. fold cks.
  rewrite Hpre, Hbody. unfold history_value. rewrite Hlatest.
  unfold candidate. cbn [Py.get rbind].
  split.
  - intros v Hv Hraise. rewrite Hv.
    destruct (Py.float fos v); [discriminate|]. reflexivity.
  - intros Hnone. rewrite Hnone. cbn. split; [reflexivity|].
    rewrite polled_last. cbn [snd]. fold cks.
    rewrite Hsplit, first_offer_app, Hpre. cbn [first_offer]. unfold offered. rewrite Hbody.
    unfold history_value. rewrite Hlatest. unfold candidate.
    cbn [Py.get rbind]. rewrite Hnone. reflexivity.
Qed.

(** The record of 16835 has the amount [null], then no amount at all. *)
Lemma unconvertible_amount_nulls_history_witness :
  (exists snap d,
     res (get_data Decimal.float_of_str
            (Scenario.portal_with Scenario.history_null_amount)
            Scenario.fresh) = Ok snap /\
     locations snap !! "16835" = Some d /\
     payment_history d = JNull) /\
  (exists snap d,
     res (get_data Decimal.float_of_str
            (Scenario.portal_with Scenario.history_no_amount)
            Scenario.fresh) = Ok snap /\
     locations snap !! "16835" = Some d /\
     payment_history d = Scenario.history_no_amount /\
     last_payment (summary snap) =
       Some {| amount := Py.zero; date := JStr "15.01.2026";
               location_id := "16835" |}).
Proof.
  split.
  - destruct (unconvertible_amount_nulls_history Decimal.float_of_str
                (Scenario.portal_with Scenario.history_null_amount)
                Scenario.fresh [] "16835" ["17012"]
                Scenario.history_null_amount
                [("amount", JNull); ("date", JStr "15.01.2026")] []
                (reach_init _ _))
      as (snap & d & Hres & Hd & Hnull & _).
    + right. exists true. vm_compute. reflexivity.
    + vm_compute. reflexivity.
    + intros l H. by apply elem_of_nil in H.
    + vm_compute. reflexivity.
    + vm_compute. reflexivity.
    + exists snap, d. split; [exact Hres|]. split; [exact Hd|].
      apply (Hnull JNull); reflexivity.
  - destruct (unconvertible_amount_nulls_history Decimal.float_of_str
                (Scenario.portal_with Scenario.history_no_amount)
                Scenario.fresh [] "16835" ["17012"]
                Scenario.history_no_amount
                [("date", JStr "15.01.2026")] []
                (reach_init _ _))
      as (snap & d & Hres & Hd & _ & Habsent).
    + right. exists true. vm_compute. reflexivity.
    + vm_compute. reflexivity.
    + intros l H. by apply elem_of_nil in H.
    + vm_compute. reflexivity.
    + vm_compute. reflexivity.
    + exists snap, d. split; [exact Hres|]. split; [exact Hd|].
      apply Habsent. reflexivity.
Defined.

(** ** The scenarios of the specification, run on the model *)

Example scenario_discovery :
  let o := get_data Decimal.float_of_str Scenario.portal Scenario.fresh in
  _location_ids (final o) = ["16835"; "17012"] /\
  _location_info (final o) !! "16835" =
    Some {| name := "Str. X, ap. 12, Iasi"; id := "16835";
            apartment := Some "12"; type := Apartment;
            association_id := None |} /\
  _location_info (final o) !! "17012" =
    Some {| name := "Str. X, ap. S4, Iasi"; id := "17012";
            apartment := Some "S4"; type := Parking;
            association_id := None |}.
Proof. vm_compute. repeat split; reflexivity. Qed.

Example scenario_login_200 :
  let o := authenticate Scenario.portal_login_200 Scenario.fresh in
  res o = Ok false /\ _authenticated (final o) = false.
Proof. vm_compute. split; reflexivity. Qed.

Example scenario_counters_not_json :
  let up :=
    {| login_page := Scenario.ok tt;
       login_submit := fun _ _ =>
         Ok (Response 302 {["adminis" := "abc123"]} (Ok tt));
       dashboard := fun _ => Scenario.ok Scenario.markup;
       api := fun r loc cks =>
         match r with
         | Counters => Ok (Response 200 ∅ (Raise ContentTypeError))
         | _ => Scenario.answers r loc cks
         end |} in
  let entry :=
    match res (get_data Decimal.float_of_str up Scenario.fresh) with
    | Ok snap => locations snap !! "16835"
    | Raise _ => None
    end in
  counters <$> entry = Some JNull /\
  pending_payments <$> entry = Some Scenario.pending_body /\
  payment_history <$> entry = Some Scenario.history_16835.
Proof. vm_compute. repeat split; reflexivity. Qed.

(** * Further properties of the client *)

(** ** [authenticate], beyond the login decision *)

(** X1: when the login page cannot be loaded (the session raises, or the
    status is not 200), [authenticate] raises after that one call: the form
    is not sent, and the object is left as it was. *)
Theorem authenticate_stops_at_login_page up s :
  (forall e, login_page up = Raise e ->
     authenticate up s = Outcome (Raise e) s [CallLoginPage]) /\
  (forall page, login_page up = Ok page -> status page <> 200 ->
     authenticate up s =
     Outcome (Raise (LoginPageError (status page))) s [CallLoginPage]).
Proof.
  split.
  - intros e He. rewrite authenticate_run, He. reflexivity.
  - intros page Hp Hs. rewrite authenticate_run, Hp.
    apply Z.eqb_neq in Hs. rewrite Hs. reflexivity.
Qed.

Lemma authenticate_stops_at_login_page_witness :
  authenticate Scenario.portal_down Scenario.fresh =
  Outcome (Raise (LoginPageError 503)) Scenario.fresh [CallLoginPage].
Proof.
  destruct (authenticate_stops_at_login_page Scenario.portal_down
              Scenario.fresh) as [_ H].
  apply (H (Response 503 ∅ (Ok tt))).
  - reflexivity.
  - simpl. lia.
Defined.

(** X2: [authenticate] never takes the session mark away: after it, the
    object is marked as authenticated exactly when it was before or the
    call returned [True], so a refused or failed login leaves an earlier
    mark standing.  The credentials, the location ids and the location
    details are not touched. *)
Theorem authenticate_keeps_mark up s :
  let o := authenticate up s in
  _authenticated (final o) =
    (_authenticated s ||
     match res o with Ok true => true | _ => false end) /\
  _username (final o) = _username s /\
  _password (final o) = _password s /\
  _location_ids (final o) = _location_ids s /\
  _location_info (final o) = _location_info s.
Proof.
  cbv zeta. rewrite authenticate_run.
  destruct (login_page up) as [page|e]; cbn [res final];
    [|rewrite orb_false_r; auto].
  destruct (Z.eqb (status page) 200); cbn [res final];
    [|rewrite orb_false_r; auto].
  cbv zeta.
  destruct (login_submit up _ _) as [reply|e]; cbn [res final];
    [|simpl; rewrite orb_false_r; auto].
  destruct (Z.eqb (status reply) 302); cbn [res final];
    [|simpl; rewrite orb_false_r; auto].
  destruct (_ !! "adminis"); simpl.
  - rewrite orb_true_r. auto.
  - rewrite orb_false_r. auto.
Qed.

(** X3: [authenticate] only adds to the cookies or overwrites them: every
    cookie name held before is still held after, however the call ends;
    and when the portal answers the form, the cookies of that answer are
    the ones held under their names. *)
Theorem authenticate_keeps_cookies up s :
  let o := authenticate up s in
  dom (_cookies s) ⊆ dom (_cookies (final o)) /\
  (forall page reply,
     login_page up = Ok page -> status page = 200 ->
     login_submit up (login_data s) (cookies page ∪ _cookies s) = Ok reply ->
     cookies reply ⊆ _cookies (final o)).
Proof.
  cbv zeta. rewrite authenticate_run. split.
  - destruct (login_page up) as [page|e]; cbn [final]; [|done].
    destruct (Z.eqb (status page) 200); cbn [final]; [|done].
    cbv zeta.
    destruct (login_submit up _ _) as [reply|e]; cbn [final].
    + assert (H : dom (_cookies s) ⊆
                  dom (cookies reply ∪ (cookies page ∪ _cookies s))).
      { rewrite !dom_union_L. set_solver. }
      destruct (Z.eqb (status reply) 302); cbn [final]; [|exact H].
      destruct (_ !! "adminis"); exact H.
    + simpl. rewrite dom_union_L. set_solver.
  - intros page reply Hp Hs Hr. rewrite Hp, Hs. cbn. rewrite Hr.
    destruct (Z.eqb (status reply) 302); cbn [final].
    + destruct (_ !! "adminis"); simpl; apply map_union_subseteq_l.
    + simpl. apply map_union_subseteq_l.
Qed.

Lemma authenticate_keeps_cookies_witness :
  _cookies (final (authenticate Scenario.portal Scenario.fresh)) !! "adminis"
  = Some "abc123".
Proof.
  destruct (authenticate_keeps_cookies Scenario.portal Scenario.fresh)
    as [_ H].
  specialize (H (Response 200 ∅ (Ok tt))
                (Response 302 {["adminis" := "abc123"]} (Ok tt))
                eq_refl eq_refl eq_refl).
  eapply lookup_weaken; [|exact H]. apply lookup_singleton_eq.
Defined.

(** ** What the location pattern captures *)












(** ** The details that discovery stores *)

Lemma first_label_some loc ms :
  loc ∈ map match_id ms <-> is_Some (first_label loc ms).
Proof.
  induction ms as [|m ms IH]; simpl.
  - split; [intros H; by apply elem_of_nil in H|intros [? ?]; discriminate].
  - rewrite elem_of_cons, IH.
    destruct (String.eqb_spec (match_id m) loc) as [->|Hne].
    + split; eauto.
    + split; [intros [?|?]; [congruence|assumption]|auto].
Qed.

Lemma scan_match_cases acc m :
  (scan_match acc m = acc /\ match_id m ∈ acc.1) \/
  (scan_match acc m =
   ((acc.1 ++ [match_id m])%list,
    <[match_id m := location_entry (match_id m) (nth 1 m "")]> acc.2) /\
   match_id m ∉ acc.1).
Proof.
  unfold scan_match. fold (match_id m).
  case_bool_decide; [left|right]; split; auto.
Qed.

(** The entry of an id is written at its first match and not again. *)
Lemma scan_info_lookup ms : forall acc loc,
  (fold_left scan_match ms acc).2 !! loc =
  if bool_decide (loc ∈ acc.1) then acc.2 !! loc
  else
    match first_label loc ms with
    | Some label => Some (location_entry loc label)
    | None => acc.2 !! loc
    end.
Proof.
  induction ms as [|m ms IH]; intros acc loc; simpl.
  - case_bool_decide; reflexivity.
  - rewrite IH.
    destruct (scan_match_cases acc m) as [[-> Hin]|[-> Hnin]]; simpl.
    + case_bool_decide as Hl; [reflexivity|].
      destruct (String.eqb_spec (match_id m) loc) as [E|_]; [congruence|].
      reflexivity.
    + destruct (String.eqb_spec (match_id m) loc) as [<-|Hne].
      * rewrite bool_decide_eq_true_2
          by (apply elem_of_app; right; by apply list_elem_of_singleton).
        rewrite bool_decide_eq_false_2 by assumption.
        by rewrite lookup_insert_eq.
      * rewrite lookup_insert_ne by assumption.
        case_bool_decide as Hl.
        -- apply elem_of_app in Hl as [Hl|Hl].
           ++ by rewrite bool_decide_eq_true_2.
           ++ apply list_elem_of_singleton in Hl. congruence.
        -- rewrite bool_decide_eq_false_2; [reflexivity|].
           intros H. apply Hl, elem_of_app. by left.
Qed.

Lemma fold_alter_lookup {A} (f : A -> A) ids : forall (m : gmap string A) k,
  NoDup ids ->
  fold_left (fun i loc => alter f loc i) ids m !! k =
  if bool_decide (k ∈ ids) then f <$> m !! k else m !! k.
Proof.
  induction ids as [|x ids IH]; intros m k Hnd; simpl; [reflexivity|].
  apply NoDup_cons in Hnd as [Hx Hnd]. rewrite IH by assumption.
  destruct (decide (k = x)) as [->|Hne].
  - rewrite bool_decide_eq_false_2 by assumption.
    rewrite bool_decide_eq_true_2 by (apply elem_of_cons; by left).
    by rewrite lookup_alter_eq.
  - rewrite lookup_alter_ne by congruence.
    case_bool_decide as Hk.
    + by rewrite bool_decide_eq_true_2 by (apply elem_of_cons; by right).
    + rewrite bool_decide_eq_false_2; [reflexivity|].
      intros H. apply elem_of_cons in H as [?|?]; congruence.
Qed.

Lemma scan_dashboard_lookup html known loc :
  (scan_dashboard html known).2 !! loc =
  match first_label loc (Re.findall location_pattern html) with
  | Some label =>
      Some (with_association (markup_association html)
              (location_entry loc label))
  | None => known !! loc
  end.
Proof.
  pose proof (scan_ids_nodup (Re.findall location_pattern html) ([], known)
                NoDup_nil_2) as Hnd.
  pose proof (scan_ids_elem (Re.findall location_pattern html) ([], known) loc)
    as Helem.
  rewrite first_label_some in Helem.
  pose proof (scan_info_lookup (Re.findall location_pattern html)
                ([], known) loc) as Hl.
  rewrite bool_decide_eq_false_2 in Hl by apply not_elem_of_nil. simpl in Hl.
  unfold scan_dashboard, markup_association.
  destruct (Re.search assoc_pattern html) as [groups|]; simpl.
  - rewrite fold_alter_lookup by assumption. rewrite Hl.
    destruct (first_label loc _) as [label|] eqn:Hf.
    + rewrite bool_decide_eq_true_2 by (apply Helem; eauto). reflexivity.
    + rewrite bool_decide_eq_false_2; [reflexivity|].
      intros H. apply Helem in H as [H|[? H]]; [|discriminate].
      by apply elem_of_nil in H.
  - rewrite Hl. destruct (first_label loc _); reflexivity.
Qed.

(** X5: when the dashboard is read, discovery stores for every matched id
    the details computed from the label of its first match, together with
    the association id of the markup when there is one, the same for all;
    the details stored earlier under other ids stay as they are. *)
Theorem discovery_details up s response html loc :
  dashboard up (_cookies s) = Ok response ->
  status response = 200 ->
  body response = Ok html ->
  _location_info (final (_extract_location_ids up s)) !! loc =
  match first_label loc (Re.findall location_pattern html) with
  | Some label =>
      Some (with_association (markup_association html)
              (location_entry loc label))
  | None => _location_info s !! loc
  end.
Proof.
  intros H1 H2 H3. rewrite extract_run. cbn [final]. unfold discovered.
  rewrite (dashboard_text_ok _ _ _ _ H1 H2 H3). simpl.
  apply scan_dashboard_lookup.
Qed.

(** The id 16835 is matched twice; its details come from the first label. *)
Lemma discovery_details_witness :
  let up :=
    {| login_page := Scenario.ok tt;
       login_submit := fun _ _ => Scenario.ok tt;
       dashboard := fun _ => Scenario.ok Scenario.markup_repeated;
       api := Scenario.answers |} in
  _location_info (final (_extract_location_ids up Scenario.fresh)) !! "16835"
  = Some {| name := "Str. X, ap. 12, Iasi"; id := "16835";
            apartment := Some "12"; type := Apartment;
            association_id := None |}.
Proof.
  intros up.
  rewrite (discovery_details up Scenario.fresh
             (Response 200 ∅ (Ok Scenario.markup_repeated))
             Scenario.markup_repeated "16835" eq_refl eq_refl eq_refl).
  vm_compute. reflexivity.
Defined.

(** ** The designator *)

Lemma spec_until_stops c r : contains (String c "") (spec_until c r) = false.
Proof.
  induction r as [|x r IH]; simpl; [reflexivity|].
  destruct (Ascii.eqb_spec x c) as [->|Hne]; [reflexivity|].
  cbn [contains]. rewrite startswith_char, IH.
  apply Ascii.eqb_neq in Hne. by rewrite Hne.
Qed.

(** X6: the apartment designator stored for a location never contains a
    comma, and it is stored exactly for the labels that contain
    ", ap. ". *)
Theorem designator_has_no_comma loc_id label :
  match apartment (location_entry loc_id label) with
  | Some apt => contains ", ap. " label = true /\ contains "," apt = false
  | None => contains ", ap. " label = false
  end.
Proof.
  unfold location_entry. rewrite contains_after_first.
  destruct (spec_after_first ", ap. " label) as [r|] eqn:Hr; simpl.
  - split; [reflexivity|].
    rewrite (designator_spec _ _ Hr). apply spec_until_stops.
  - reflexivity.
Qed.

(** ** Polls once the locations are known *)

Lemma get_data_ok fos up s snap :
  res (get_data fos up s) = Ok snap ->
  snap = snapshot_of fos up (final (get_data fos up s)).
Proof.
  destruct (_authenticated s) eqn:Ha.
  - rewrite get_data_run_authenticated by assumption. cbn [res final].
    congruence.
  - rewrite get_data_run_login by assumption. cbv zeta.
    destruct (res (authenticate up s)); cbn [res final]; congruence.
Qed.

Lemma ready_known up s : _location_ids s <> [] -> ready up s = s.
Proof. unfold ready. destruct (_location_ids s); congruence. Qed.

Lemma discovery_calls_known s : _location_ids s <> [] -> discovery_calls s = [].
Proof. unfold discovery_calls. destruct (_location_ids s); congruence. Qed.

(** X7: with a session and with location ids already stored, a poll neither
    logs in nor reads the dashboard again: it calls the three endpoints of
    each stored id, in the order pending payments, payment history,
    counters, returns a snapshot, and leaves the object exactly as it
    was. *)
Theorem get_data_with_known_locations fos up s :
  _authenticated s = true ->
  _location_ids s <> [] ->
  let o := get_data fos up s in
  is_raise (res o) = false /\
  final o = s /\
  log o = flat_map
            (fun loc => [CallApi PendingPayments loc;
                         CallApi PaymentHistory loc;
                         CallApi Counters loc])
            (_location_ids s).
Proof.
  intros Ha Hids. cbv zeta.
  rewrite get_data_run_authenticated by assumption. cbn [res final log].
  rewrite ready_known, discovery_calls_known by assumption.
  auto.
Qed.

Lemma get_data_with_known_locations_witness :
  let s := final (get_data Decimal.float_of_str Scenario.portal
                    Scenario.fresh) in
  let o := get_data Decimal.float_of_str Scenario.portal s in
  final o = s /\
  log o = [CallApi PendingPayments "16835"; CallApi PaymentHistory "16835";
           CallApi Counters "16835";
           CallApi PendingPayments "17012"; CallApi PaymentHistory "17012";
           CallApi Counters "17012"].
Proof.
  intros s o.
  destruct (get_data_with_known_locations Decimal.float_of_str
              Scenario.portal s) as (_ & Hf & Hl).
  - vm_compute. reflexivity.
  - vm_compute. discriminate.
  - split; [exact Hf|]. subst o. rewrite Hl. vm_compute. reflexivity.
Defined.

(** X8: the ids the object holds after a poll that returned are exactly the
    keys of the "locations" of the snapshot. *)
Theorem stored_ids_are_snapshot_keys fos up s snap loc :
  res (get_data fos up s) = Ok snap ->
  loc ∈ _location_ids (final (get_data fos up s)) <->
  is_Some (locations snap !! loc).
Proof.
  intros Hres. rewrite (get_data_ok _ _ _ _ Hres).
  unfold snapshot_of. cbn [locations]. symmetry. apply polled_entries.
Qed.

Lemma stored_ids_are_snapshot_keys_witness :
  exists snap,
    res (get_data Decimal.float_of_str Scenario.portal Scenario.fresh)
    = Ok snap /\
    is_Some (locations snap !! "17012").
Proof.
  pose (snap := snapshot_of Decimal.float_of_str Scenario.portal
                  (final (get_data Decimal.float_of_str Scenario.portal
                            Scenario.fresh))).
  assert (Hres : res (get_data Decimal.float_of_str Scenario.portal
                        Scenario.fresh) = Ok snap)
    by (vm_compute; reflexivity).
  exists snap. split; [exact Hres|].
  apply (stored_ids_are_snapshot_keys _ _ _ _ "17012" Hres).
  vm_compute. apply elem_of_cons. right. apply elem_of_cons. by left.
Defined.

(** ** The entries of a snapshot *)

Section Entries.
Variable fos : string -> option spec_float.
Variable up : Portal.
Variable cks : gmap string string.
Variable known : gmap string LocationInfo.

(** Every entry of the mapping was built by a turn of the loop. *)
Lemma polled_entry_built ids : forall acc loc d,
  (polled fos up cks known ids acc).1 !! loc = Some d ->
  acc.1 !! loc = Some d \/
  exists last,
    d = {| info := known !! loc;
           pending_payments :=
             pending_value (fetched up cks PendingPayments loc);
           payment_history :=
             (history_value fos loc last
                (fetched up cks PaymentHistory loc)).1;
           counters := counters_value (fetched up cks Counters loc) |}.
Proof.
  induction ids as [|l ids IH]; intros acc loc d; [auto|].
  rewrite polled_cons. intros H. apply IH in H as [H|H]; [|auto].
  simpl in H. destruct (decide (l = loc)) as [->|Hne].
  - rewrite lookup_insert_eq in H. injection H as <-. eauto.
  - rewrite lookup_insert_ne in H by assumption. auto.
Qed.

Lemma pending_value_shape r :
  pending_value r = JNull \/ pending_check (pending_value r) = Ok tt.
Proof.
  unfold pending_value. destruct r as [b|e]; [|auto].
  destruct (pending_check b) as [[]|e] eqn:Hc; auto.
Qed.

Lemma history_value_shape loc last r :
  (history_value fos loc last r).1 = JNull \/
  exists o, latest_record (history_value fos loc last r).1 = Ok o.
Proof.
  unfold history_value. destruct r as [b|e]; [|auto].
  destruct (latest_record b) as [[latest|]|e] eqn:Hl; simpl; [| |auto].
  - destruct last; [eauto|].
    destruct (candidate fos loc latest); simpl; eauto.
  - destruct last; eauto.
Qed.

End Entries.

(** X9: in a snapshot that a poll returns, the "pending_payments" of an
    entry is null or a body on which the checks of the pending block pass
    (an object whose "results" is falsy or an object), its
    "payment_history" is null or a body whose first record can be looked
    up, and its "info" is what the object holds for the id. *)
Theorem snapshot_entries_are_well_shaped fos up s snap loc d :
  res (get_data fos up s) = Ok snap ->
  locations snap !! loc = Some d ->
  (pending_payments d = JNull \/ pending_check (pending_payments d) = Ok tt) /\
  (payment_history d = JNull \/
   exists o, latest_record (payment_history d) = Ok o) /\
  info d = _location_info (final (get_data fos up s)) !! loc.
Proof.
  intros Hres Hd. rewrite (get_data_ok _ _ _ _ Hres) in Hd.
  unfold snapshot_of in Hd. cbn [locations] in Hd.
  apply polled_entry_built in Hd as [Hd|[last ->]].
  - simpl in Hd. by rewrite lookup_empty in Hd.
  - cbn [pending_payments payment_history info].
    split; [apply pending_value_shape|].
    split; [apply history_value_shape|reflexivity].
Qed.

Lemma snapshot_entries_are_well_shaped_witness :
  exists snap d,
    res (get_data Decimal.float_of_str
           (Scenario.portal_with Scenario.history_null_amount)
           Scenario.fresh) = Ok snap /\
    locations snap !! "16835" = Some d /\
    payment_history d = JNull /\
    pending_check (pending_payments d) = Ok tt.
Proof.
  pose (up := Scenario.portal_with Scenario.history_null_amount).
  pose (snap := snapshot_of Decimal.float_of_str up
                  (final (get_data Decimal.float_of_str up Scenario.fresh))).
  pose (d := {| info := _location_info
                          (final (get_data Decimal.float_of_str up
                                    Scenario.fresh)) !! "16835";
                pending_payments := Scenario.pending_body;
                payment_history := JNull;
                counters := JNull |}).
  assert (Hres : res (get_data Decimal.float_of_str up Scenario.fresh)
                 = Ok snap) by (vm_compute; reflexivity).
  assert (Hd : locations snap !! "16835" = Some d)
    by (vm_compute; reflexivity).
  exists snap, d. split; [exact Hres|]. split; [exact Hd|].
  destruct (snapshot_entries_are_well_shaped _ _ _ _ _ _ Hres Hd)
    as ([Hp|Hp] & _ & _).
  - discriminate.
  - split; [reflexivity|exact Hp].
Defined.

(** ** The summary and the entries *)

Lemma candidate_location fos loc latest c :
  candidate fos loc latest = Ok c -> location_id c = loc.
Proof.
  unfold candidate, rbind.
  destruct (Py.get latest "amount" (JInt 0)); [|discriminate].
  destruct (Py.float fos _); [|discriminate].
  destruct (Py.get latest "date" (JStr "")); [|discriminate].
  intros [= <-]. reflexivity.
Qed.

(** The entry behind the last payment of a snapshot. *)
Lemma snapshot_last_entry fos up s c :
  NoDup (_location_ids s) ->
  last_payment (summary (snapshot_of fos up s)) = Some c ->
  exists d latest,
    locations (snapshot_of fos up s) !! location_id c = Some d /\
    fetched up (_cookies s) PaymentHistory (location_id c) =
      Ok (payment_history d) /\
    latest_record (payment_history d) = Ok (Some latest) /\
    candidate fos (location_id c) latest = Ok c.
Proof.
  intros Hnd Hlast. rewrite snapshot_last_payment in Hlast.
  apply first_offer_some in Hlast as (pre & loc & post & Hsplit & Hpre & Hloc).
  apply offered_some in Hloc as (body & latest & Hbody & Hlatest & Hc).
  rewrite (candidate_location _ _ _ _ Hc).
  assert (Hpost : loc ∉ post).
  { rewrite Hsplit in Hnd. apply NoDup_app in Hnd as (_ & _ & Hnd).
    by apply NoDup_cons in Hnd as [? _]. }
  apply first_offer_none in Hpre.
  eexists. exists latest. unfold snapshot_of. cbn [locations].
  rewrite Hsplit. split; [by apply polled_lookup|].
  cbn [payment_history]. rewrite polled_last. cbn [snd]. rewrite Hpre, Hbody.
  unfold history_value. rewrite Hlatest, Hc. cbn [fst]. auto.
Qed.

(** X10: when the summary of a poll names a last payment, the location it
    names has an entry in the snapshot, the "payment_history" of that entry
    is the body fetched for it, and amount, date and location of the summary
    are those computed from the first record of that body. *)
Theorem summary_points_to_fetched_history fos up s snap c :
  reachable s ->
  res (get_data fos up s) = Ok snap ->
  last_payment (summary snap) = Some c ->
  let after := final (get_data fos up s) in
  exists d latest,
    locations snap !! location_id c = Some d /\
    fetched up (_cookies after) PaymentHistory (location_id c) =
      Ok (payment_history d) /\
    latest_record (payment_history d) = Ok (Some latest) /\
    candidate fos (location_id c) latest = Ok c.
Proof.
  intros Hreach Hres Hlast after.
  rewrite (get_data_ok _ _ _ _ Hres) in Hlast |- *. fold after in Hlast |- *.
  apply snapshot_last_entry; [|exact Hlast].
  apply get_data_nodup, reachable_nodup, Hreach.
Qed.

Lemma summary_points_to_fetched_history_witness :
  exists snap d,
    res (get_data Decimal.float_of_str Scenario.portal Scenario.fresh)
    = Ok snap /\
    locations snap !! "16835" = Some d /\
    payment_history d = Scenario.history_16835.
Proof.
  pose (o := get_data Decimal.float_of_str Scenario.portal Scenario.fresh).
  pose (snap := snapshot_of Decimal.float_of_str Scenario.portal (final o)).
  pose (c := {| amount := Py.float_of_decimal 86212 2;
                date := JStr "30.01.2026"; location_id := "16835" |}).
  assert (Hres : res o = Ok snap) by (vm_compute; reflexivity).
  assert (Hlast : last_payment (summary snap) = Some c)
    by (vm_compute; reflexivity).
  destruct (summary_points_to_fetched_history _ _ _ _ _
              (reach_init _ _) Hres Hlast)
    as (d & latest & Hd & Hf & _).
  exists snap, d. split; [exact Hres|]. split; [exact Hd|].
  assert (Hf' : fetched Scenario.portal (_cookies (final o)) PaymentHistory
                  "16835" = Ok Scenario.history_16835)
    by (vm_compute; reflexivity).
  change (fetched Scenario.portal (_cookies (final o)) PaymentHistory
            "16835" = Ok (payment_history d)) in Hf.
  rewrite Hf' in Hf. by injection Hf as <-.
Defined.

(** ** [get_locations] and [get_billing_info] *)

Lemma get_locations_run_authenticated up s :
  _authenticated s = true ->
  get_locations up s =
  Outcome (Ok (_location_ids (ready up s))) (ready up s) (discovery_calls s).
Proof.
  intros Ha. unfold get_locations.
  erewrite bind_ok by reflexivity. rewrite Ha. cbn [negb].
  erewrite (bind_ok (ret tt)) by reflexivity.
  erewrite bind_ok by reflexivity. cbn [res final log ret].
  unfold ready, discovery_calls.
  destruct (_location_ids s) as [|l ls] eqn:E.
  - erewrite bind_ok by apply extract_run.
    erewrite bind_ok by reflexivity. reflexivity.
  - cbn. rewrite E. reflexivity.
Qed.

Lemma get_locations_run_login up s :
  _authenticated s = false ->
  get_locations up s =
  let a := authenticate up s in
  match res a with
  | Raise e => Outcome (Raise e) (final a) (log a)
  | Ok _ =>
      Outcome (Ok (_location_ids (ready up (final a)))) (ready up (final a))
        (log a ++ discovery_calls (final a))
  end.
Proof.
  intros Ha. unfold get_locations.
  erewrite bind_ok by reflexivity. rewrite Ha. cbn [negb final log res].
  destruct (authenticate up s) as [[b|e] s' l] eqn:Hau; cbn [res final log].
  - erewrite bind_ok; cycle 1.
    { erewrite bind_ok by apply Hau. reflexivity. }
    cbn [res final log ret].
    erewrite bind_ok by reflexivity. cbn [res final log].
    unfold ready, discovery_calls.
    destruct (_location_ids s') as [|l0 ls] eqn:E.
    + erewrite bind_ok by apply extract_run.
      erewrite bind_ok by reflexivity. cbn. by rewrite app_nil_r.
    + cbn. rewrite E, !app_nil_r. reflexivity.
  - erewrite bind_raise; [reflexivity|].
    erewrite bind_raise by apply Hau. reflexivity.
Qed.

(** X11: [get_locations] leaves the object as a poll does, raises in the
    cases in which a poll raises, and otherwise returns the ids the object
    then holds; with a session and ids already stored it returns them
    without any call. *)
Theorem get_locations_like_a_poll fos up s :
  let o := get_locations up s in
  final o = final (get_data fos up s) /\
  (forall e, res o = Raise e <-> res (get_data fos up s) = Raise e) /\
  (forall ids, res o = Ok ids -> ids = _location_ids (final o)) /\
  (_authenticated s = true -> _location_ids s <> [] ->
   o = Outcome (Ok (_location_ids s)) s []).
Proof.
  cbv zeta. destruct (_authenticated s) eqn:Ha.
  - rewrite get_locations_run_authenticated,
      get_data_run_authenticated by assumption.
    cbn [res final]. repeat split; try congruence.
    intros _ Hids. by rewrite ready_known, discovery_calls_known.
  - rewrite get_locations_run_login, get_data_run_login by assumption.
    cbv zeta.
    destruct (res (authenticate up s)); cbn [res final];
      repeat split; congruence.
Qed.

Lemma get_locations_like_a_poll_witness :
  let s := final (get_data Decimal.float_of_str Scenario.portal
                    Scenario.fresh) in
  get_locations Scenario.portal s = Outcome (Ok ["16835"; "17012"]) s [].
Proof.
  intros s.
  destruct (get_locations_like_a_poll Decimal.float_of_str Scenario.portal s)
    as (_ & _ & _ & H).
  rewrite H; [reflexivity|vm_compute; reflexivity|vm_compute; discriminate].
Defined.

(** ** [get_billing_info] *)

Lemma get_billing_info_run_authenticated fos up s :
  _authenticated s = true ->
  get_billing_info fos up s =
  let g := get_data fos up s in
  Outcome (match res g with Ok d => Ok (summary d) | Raise e => Raise e end)
    (final g) (log g).
Proof.
  intros Ha. unfold get_billing_info.
  erewrite bind_ok by reflexivity. rewrite Ha. cbn [negb].
  erewrite (bind_ok (ret tt)) by reflexivity. cbn [res final log ret].
  cbv zeta. unfold bind.
  destruct (get_data fos up s) as [[d|e] s' l]; cbn; [|reflexivity].
  by rewrite app_nil_r.
Qed.

Lemma get_billing_info_run_login fos up s :
  _authenticated s = false ->
  get_billing_info fos up s =
  let a := authenticate up s in
  match res a with
  | Raise e => Outcome (Raise e) (final a) (log a)
  | Ok _ =>
      let g := get_data fos up (final a) in
      Outcome (match res g with Ok d => Ok (summary d) | Raise e => Raise e end)
        (final g) (log a ++ log g)
  end.
Proof.
  intros Ha. unfold get_billing_info.
  erewrite bind_ok by reflexivity. rewrite Ha. cbn [negb final log res].
  destruct (authenticate up s) as [[b|e] s' l] eqn:Hau; cbn [res final log].
  - erewrite bind_ok; cycle 1.
    { erewrite bind_ok by apply Hau. reflexivity. }
    cbn [res final log ret]. cbv zeta. unfold bind.
    destruct (get_data fos up s') as [[d|e] s'' l']; cbn;
      rewrite ?app_nil_r; reflexivity.
  - erewrite bind_raise; [reflexivity|].
    erewrite bind_raise by apply Hau. reflexivity.
Qed.

Lemma authenticate_result_mark up s b :
  res (authenticate up s) = Ok b ->
  _authenticated (final (authenticate up s)) = (_authenticated s || b).
Proof.
  rewrite authenticate_run.
  destruct (login_page up) as [page|e]; cbn [res final]; [|discriminate].
  destruct (Z.eqb (status page) 200); cbn [res final]; [|discriminate].
  cbv zeta.
  destruct (login_submit up _ _) as [reply|e]; cbn [res final];
    [|discriminate].
  destruct (Z.eqb (status reply) 302); cbn [res final].
  - destruct (_ !! "adminis"); cbn [res final]; intros [= <-]; simpl.
    + by rewrite orb_true_r.
    + by rewrite orb_false_r.
  - intros [= <-]. simpl. by rewrite orb_false_r.
Qed.

Lemma count_calls_app c l1 l2 :
  count_calls c (l1 ++ l2) = (count_calls c l1 + count_calls c l2)%nat.
Proof. unfold count_calls. by rewrite filter_app, length_app. Qed.

Lemma authenticate_one_login_page up s :
  count_calls is_login_page_call (log (authenticate up s)) = 1%nat.
Proof.
  rewrite authenticate_run.
  destruct (login_page up) as [page|e]; cbn [log]; [|reflexivity].
  destruct (Z.eqb (status page) 200); cbn [log]; [|reflexivity].
  cbv zeta.
  destruct (login_submit up _ _) as [reply|e]; cbn [log]; [|reflexivity].
  destruct (Z.eqb (status reply) 302); cbn [log]; [|reflexivity].
  destruct (_ !! "adminis"); reflexivity.
Qed.

Lemma poll_calls_no_login_page ids :
  count_calls is_login_page_call (poll_calls ids) = 0%nat.
Proof.
  induction ids as [|l ids IH]; [reflexivity|].
  unfold poll_calls in *. simpl. exact IH.
Qed.

Lemma discovery_calls_no_login_page s :
  count_calls is_login_page_call (discovery_calls s) = 0%nat.
Proof. unfold discovery_calls. destruct (_location_ids s); reflexivity. Qed.

(** X12: unless a login is attempted and refused, [get_billing_info] is a
    poll of which only the summary is returned: same result up to the
    projection, same calls, same object afterwards. *)
Theorem get_billing_info_is_summary_of_poll fos up s :
  _authenticated s = true \/ res (authenticate up s) <> Ok false ->
  let o := get_billing_info fos up s in
  let g := get_data fos up s in
  res o = match res g with Ok d => Ok (summary d) | Raise e => Raise e end /\
  final o = final g /\
  log o = log g.
Proof.
  intros H. cbv zeta. destruct (_authenticated s) eqn:Ha.
  - rewrite get_billing_info_run_authenticated by assumption. auto.
  - destruct H as [?|H]; [discriminate|].
    rewrite get_billing_info_run_login, get_data_run_login by assumption.
    cbv zeta. destruct (res (authenticate up s)) as [b|e] eqn:Hb; [|auto].
    destruct b; [|congruence].
    pose proof (authenticate_result_mark _ _ _ Hb) as Hm.
    rewrite orb_true_r in Hm.
    rewrite get_data_run_authenticated by assumption. auto.
Qed.

Lemma get_billing_info_is_summary_of_poll_witness :
  res (get_billing_info Decimal.float_of_str Scenario.portal Scenario.fresh)
  = Ok {| total_pending := Py.zero;
          location_count := 2;
          last_payment :=
            Some {| amount := Py.float_of_decimal 86212 2;
                    date := JStr "30.01.2026";
                    location_id := "16835" |} |}.
Proof.
  destruct (get_billing_info_is_summary_of_poll Decimal.float_of_str
              Scenario.portal Scenario.fresh) as (Hr & _ & _).
  - right. vm_compute. discriminate.
  - rewrite Hr. vm_compute. reflexivity.
Defined.

(** X13: when the object has no session and the portal refuses the login
    ([authenticate] returns [False]), [get_billing_info] goes through the
    login twice: once itself and once more inside the poll, so that the
    login page is loaded exactly two times. *)
Theorem get_billing_info_logs_in_twice fos up s :
  _authenticated s = false ->
  res (authenticate up s) = Ok false ->
  let o := get_billing_info fos up s in
  let a := authenticate up s in
  log o = (log a ++ log (get_data fos up (final a)))%list /\
  (exists rest,
     log (get_data fos up (final a)) =
     (log (authenticate up (final a)) ++ rest)%list) /\
  count_calls is_login_page_call (log o) = 2%nat.
Proof.
  intros Ha Hb. cbv zeta.
  pose proof (authenticate_result_mark _ _ _ Hb) as Hm.
  rewrite Ha in Hm. simpl in Hm.
  rewrite get_billing_info_run_login by assumption. cbv zeta.
  rewrite Hb. cbn [log]. split; [reflexivity|].
  rewrite count_calls_app, authenticate_one_login_page.
  rewrite (get_data_run_login _ _ _ Hm). cbv zeta.
  pose proof (authenticate_one_login_page up (final (authenticate up s))) as H1.
  destruct (res (authenticate up (final (authenticate up s)))); cbn [log].
  - split; [eauto|].
    rewrite !count_calls_app, H1, discovery_calls_no_login_page,
      poll_calls_no_login_page. reflexivity.
  - split; [exists []; by rewrite app_nil_r|]. rewrite H1. reflexivity.
Qed.

Lemma get_billing_info_logs_in_twice_witness :
  count_calls is_login_page_call
    (log (get_billing_info Decimal.float_of_str Scenario.portal_login_200
            Scenario.fresh)) = 2%nat.
Proof.
  destruct (get_billing_info_logs_in_twice Decimal.float_of_str
              Scenario.portal_login_200 Scenario.fresh eq_refl eq_refl)
    as (_ & _ & H).
  exact H.
Defined.

(** * The sensors on the snapshots of [get_data] *)

Lemma py_get_object d key default v :
  Py.get d key default = Ok v -> exists fs, d = JObject fs.
Proof. destruct d; try discriminate. eauto. Qed.

Lemma snapshot_entry_built fos up s snap loc d :
  res (get_data fos up s) = Ok snap ->
  locations snap !! loc = Some d ->
  exists last,
    let after := final (get_data fos up s) in
    d = {| info := _location_info after !! loc;
           pending_payments :=
             pending_value (fetched up (_cookies after) PendingPayments loc);
           payment_history :=
             (history_value fos loc last
                (fetched up (_cookies after) PaymentHistory loc)).1;
           counters :=
             counters_value (fetched up (_cookies after) Counters loc) |}.
Proof.
  intros Hres Hd. rewrite (get_data_ok _ _ _ _ Hres) in Hd.
  unfold snapshot_of in Hd. cbn [locations] in Hd.
  apply polled_entry_built in Hd as [Hd|Hd]; [|exact Hd].
  simpl in Hd. by rewrite lookup_empty in Hd.
Qed.

Lemma pending_sensor_on_checked p :
  pending_check p = Ok tt ->
  (if Py.truthy p then
     let* found := Py.get p "results" JNull in
     if Py.truthy found then
       let* results := Py.item p "results" in
       let total := Py.zero in
       let* _ := Py.get results "owner" JNull in
       let* _ := Py.get results "assoc" JNull in
       Ok total
     else Ok Py.zero
   else Ok Py.zero) = Ok Py.zero.
Proof.
  unfold pending_check, rbind. intros H.
  destruct (Py.truthy p); [|reflexivity].
  destruct (Py.get p "results" JNull) as [found|e]; [|discriminate].
  destruct (Py.truthy found); [|reflexivity].
  destruct (Py.item p "results") as [results|e]; [|discriminate].
  destruct (Py.get results "owner" JNull) as [owner|e] eqn:Ho; [|discriminate].
  apply py_get_object in Ho as [fs ->]. reflexivity.
Qed.

(** X14: the pending sensor of a location reads [0.0] and does not raise,
    before the first poll, for an id without an entry, and on every
    snapshot that [get_data] returns, whatever the portal answered. *)
Theorem pending_sensor_reads_zero fos up s snap loc :
  res (get_data fos up s) = Ok snap ->
  Sensor.pending_native_value (Some snap) loc = Ok Py.zero /\
  Sensor.pending_native_value None loc = Ok Py.zero.
Proof.
  intros Hres. split; [|reflexivity].
  unfold Sensor.pending_native_value.
  destruct (locations snap !! loc) as [d|] eqn:Hd; [|reflexivity].
  destruct (snapshot_entry_built _ _ _ _ _ _ Hres Hd) as [last ->].
  cbn [pending_payments].
  destruct (pending_value_shape
              (fetched up (_cookies (final (get_data fos up s)))
                 PendingPayments loc)) as [->|Hc]; [reflexivity|].
  by apply pending_sensor_on_checked.
Qed.

Lemma pending_sensor_reads_zero_witness :
  exists snap,
    res (get_data Decimal.float_of_str Scenario.portal Scenario.fresh)
    = Ok snap /\
    is_Some (locations snap !! "16835") /\
    Sensor.pending_native_value (Some snap) "16835" = Ok Py.zero.
Proof.
  pose (snap := snapshot_of Decimal.float_of_str Scenario.portal
                  (final (get_data Decimal.float_of_str Scenario.portal
                            Scenario.fresh))).
  assert (Hres : res (get_data Decimal.float_of_str Scenario.portal
                        Scenario.fresh) = Ok snap)
    by (vm_compute; reflexivity).
  exists snap. split; [exact Hres|].
  split; [vm_compute; eauto|].
  apply (pending_sensor_reads_zero _ _ _ _ "16835" Hres).
Defined.

(** The amount sensors look the first record up as [get_data] does. *)
Lemma latest_amount_on_entry fos snap loc d :
  locations snap !! loc = Some d ->
  Py.truthy (payment_history d) = true ->
  Sensor.latest_amount fos (Some snap) loc =
  let* o := latest_record (payment_history d) in
  match o with
  | Some latest =>
      let* amount_str := Py.get latest "amount" (JStr "0") in
      match Py.float fos amount_str with
      | Ok f => Ok (Some f)
      | Raise ValueError | Raise TypeError => Ok None
      | Raise e => Raise e
      end
  | None => Ok None
  end.
Proof.
  intros Hd Ht. unfold Sensor.latest_amount, latest_record, rbind.
  rewrite Hd, Ht.
  destruct (Py.get (payment_history d) "results" JNull) as [found|e];
    [|reflexivity].
  destruct (Py.truthy found); [|reflexivity].
  destruct (Py.item (payment_history d) "results") as [results|e];
    [|reflexivity].
  destruct (Py.len results) as [n|e]; [|reflexivity].
  destruct (0 <? n)%nat; [|reflexivity].
  destruct (Py.first results); reflexivity.
Qed.

Lemma latest_amount_on_null fos snap loc d :
  locations snap !! loc = Some d ->
  Py.truthy (payment_history d) = false ->
  Sensor.latest_amount fos (Some snap) loc = Ok None.
Proof.
  intros Hd Ht. unfold Sensor.latest_amount. by rewrite Hd, Ht.
Qed.

Lemma py_float_raises fos v e :
  Py.float fos v = Raise e ->
  e = ValueError \/ e = TypeError \/ e = OverflowError.
Proof.
  destruct v; simpl; try (intros [= <-]; auto).
  - unfold Py.float_of_int.
    destruct (binary_normalize _ _ _ _ _); try discriminate.
    intros [= <-]. auto.
  - unfold Py.float_of_int.
    destruct (binary_normalize _ _ _ _ _); try discriminate.
    intros [= <-]. auto.
  - destruct (fos s); [discriminate|]. intros [= <-]. auto.
Qed.

Lemma py_get_raises d key default e :
  Py.get d key default = Raise e -> e = AttributeError.
Proof. destruct d; simpl; congruence. Qed.

(** X15: on a snapshot that [get_data] returns, the two amount sensors of a
    location (monthly bill, last payment) never raise in looking the first
    record up; they can only raise [AttributeError], when the first record
    is not an object, or [OverflowError], when its amount is an integer too
    large for a float. *)
Theorem amount_sensor_errors fos up s snap loc e :
  res (get_data fos up s) = Ok snap ->
  Sensor.monthly_bill_native_value fos (Some snap) loc = Raise e \/
  Sensor.last_payment_native_value fos (Some snap) loc = Raise e ->
  e = AttributeError \/ e = OverflowError.
Proof.
  intros Hres H.
  assert (Hr : Sensor.latest_amount fos (Some snap) loc = Raise e)
    by (destruct H; assumption).
  clear H.
  destruct (locations snap !! loc) as [d|] eqn:Hd;
    [|unfold Sensor.latest_amount in Hr; by rewrite Hd in Hr].
  destruct (Py.truthy (payment_history d)) eqn:Ht;
    [|by rewrite (latest_amount_on_null _ _ _ _ Hd Ht) in Hr].
  rewrite (latest_amount_on_entry _ _ _ _ Hd Ht) in Hr.
  destruct (snapshot_entry_built _ _ _ _ _ _ Hres Hd) as [last Hbuilt].
  cbv zeta in Hbuilt.
  assert (Hshape : payment_history d = JNull \/
                   exists o, latest_record (payment_history d) = Ok o).
  { rewrite Hbuilt. cbn [payment_history]. apply history_value_shape. }
  destruct Hshape as [Hn|[o Ho]]; [rewrite Hn in Ht; discriminate|].
  rewrite Ho in Hr. unfold rbind in Hr.
  destruct o as [latest|]; [|discriminate].
  destruct (Py.get latest "amount" (JStr "0")) as [a|e'] eqn:Hg.
  - destruct (Py.float fos a) as [f|e'] eqn:Hf; [discriminate|].
    apply py_float_raises in Hf as [ -> | [ -> | -> ] ]; try discriminate.
    injection Hr as <-. auto.
  - injection Hr as <-. apply py_get_raises in Hg. auto.
Qed.

(** The history of 17012 lists a text: its sensor raises. *)
Lemma amount_sensor_errors_witness :
  exists snap,
    res (get_data Decimal.float_of_str Scenario2.portal Scenario.fresh)
    = Ok snap /\
    Sensor.monthly_bill_native_value Decimal.float_of_str (Some snap) "17012"
    = Raise AttributeError.
Proof.
  pose (snap := snapshot_of Decimal.float_of_str Scenario2.portal
                  (final (get_data Decimal.float_of_str Scenario2.portal
                            Scenario.fresh))).
  assert (Hres : res (get_data Decimal.float_of_str Scenario2.portal
                        Scenario.fresh) = Ok snap)
    by (vm_compute; reflexivity).
  exists snap. split; [exact Hres|].
  destruct (Sensor.monthly_bill_native_value Decimal.float_of_str (Some snap)
              "17012") as [v|e] eqn:Hv.
  - vm_compute in Hv. discriminate.
  - destruct (amount_sensor_errors _ _ _ _ _ _ Hres (or_introl Hv))
      as [ -> | -> ]; [reflexivity|].
    vm_compute in Hv. discriminate.
Defined.

Lemma latest_record_truthy h latest :
  latest_record h = Ok (Some latest) -> Py.truthy h = true.
Proof.
  unfold latest_record, rbind.
  destruct h; simpl; try discriminate.
  destruct fields as [|f fs]; [|reflexivity].
  simpl. discriminate.
Qed.

(** X16: for the location that the summary names, the two amount sensors
    show the amount of the summary whenever the first record has an
    "amount".  When the record has none, the summary holds [0.0], from
    [float(0)], while the sensors convert the text "0". *)
Theorem amount_sensor_agrees_with_summary fos up s snap c :
  reachable s ->
  res (get_data fos up s) = Ok snap ->
  last_payment (summary snap) = Some c ->
  let shown :=
    Sensor.last_payment_native_value fos (Some snap) (location_id c) in
  Sensor.monthly_bill_native_value fos (Some snap) (location_id c) = shown /\
  exists d fields,
    locations snap !! location_id c = Some d /\
    latest_record (payment_history d) = Ok (Some (JObject fields)) /\
    match Py.assoc "amount" fields with
    | Some _ => shown = Ok (Some (amount c))
    | None => amount c = Py.zero /\ shown = Ok (fos "0")
    end.
Proof.
  intros Hreach Hres Hlast shown. split; [reflexivity|]. subst shown.
  unfold Sensor.last_payment_native_value.
  rewrite (get_data_ok _ _ _ _ Hres) in Hlast |- *.
  destruct (snapshot_last_entry _ _ _ _
              (get_data_nodup fos up s (reachable_nodup _ Hreach)) Hlast)
    as (d & latest & Hd & _ & Hlatest & Hc).
  pose proof Hc as Hc'. unfold candidate, rbind in Hc'.
  destruct (Py.get latest "amount" (JInt 0)) as [a|e] eqn:Hg; [|discriminate].
  destruct (py_get_object _ _ _ _ Hg) as [fields ->].
  exists d, fields. split; [exact Hd|]. split; [exact Hlatest|].
  rewrite (latest_amount_on_entry _ _ _ _ Hd (latest_record_truthy _ _ Hlatest)).
  rewrite Hlatest. unfold rbind. simpl in Hg |- *.
  destruct (Py.float fos a) as [x|e] eqn:Hf; [|discriminate].
  injection Hc' as <-. cbn [amount].
  destruct (Py.assoc "amount" fields) as [v|].
  - injection Hg as ->. by rewrite Hf.
  - injection Hg as <-. simpl in Hf. injection Hf as <-.
    split; [reflexivity|]. simpl. destruct (fos "0"); reflexivity.
Qed.

Lemma amount_sensor_agrees_with_summary_witness :
  exists snap,
    res (get_data Decimal.float_of_str Scenario.portal Scenario.fresh)
    = Ok snap /\
    Sensor.monthly_bill_native_value Decimal.float_of_str (Some snap) "16835"
    = Ok (Some (Py.float_of_decimal 86212 2)).
Proof.
  pose (snap := snapshot_of Decimal.float_of_str Scenario.portal
                  (final (get_data Decimal.float_of_str Scenario.portal
                            Scenario.fresh))).
  pose (c := {| amount := Py.float_of_decimal 86212 2;
                date := JStr "30.01.2026"; location_id := "16835" |}).
  assert (Hres : res (get_data Decimal.float_of_str Scenario.portal
                        Scenario.fresh) = Ok snap)
    by (vm_compute; reflexivity).
  assert (Hlast : last_payment (summary snap) = Some c)
    by (vm_compute; reflexivity).
  exists snap. split; [exact Hres|].
  destruct (amount_sensor_agrees_with_summary _ _ _ _ _
              (reach_init _ _) Hres Hlast) as [Hsame _].
  change (location_id c) with "16835" in Hsame.
  rewrite Hsame. vm_compute. reflexivity.
Defined.

(** ** The name of a location's sensors *)

Section Names.
Import PyStr.
#[local] Arguments startswith : simpl never.

Lemma split_without_separator sep s :
  contains sep s = false -> split sep s = [s].
Proof.
  unfold split. induction s as [|c s IH]; [reflexivity|].
  cbn [contains split_from]. intros H.
  apply orb_false_iff in H as [Hp Hc]. rewrite Hp.
  specialize (IH Hc). destruct (split_from sep 0 s) as [seg rest].
  by injection IH as -> ->.
Qed.

Lemma contains_tail sep c s :
  contains sep s = true -> contains sep (String c s) = true.
Proof. intros H. cbn [contains]. rewrite H. apply orb_true_r. Qed.

Lemma contains_lstrip sep s :
  contains sep (lstrip s) = true -> contains sep s = true.
Proof.
  induction s as [|c s IH]; [auto|]. cbn [lstrip].
  destruct (isspace c); [|auto]. intros H. apply contains_tail. auto.
Qed.

Lemma startswith_rstrip s : forall p,
  startswith p (rstrip s) = true -> startswith p s = true.
Proof.
  induction s as [|c s IH]; intros p; [auto|]. cbn [rstrip].
  destruct p as [|a p]; [intros _; apply startswith_nil|].
  destruct (isspace c && String.eqb (rstrip s) ""); [discriminate|].
  rewrite !startswith_cons. destruct (Ascii.ascii_dec a c); [apply IH|auto].
Qed.

Lemma contains_rstrip sep s :
  contains sep (rstrip s) = true -> contains sep s = true.
Proof.
  induction s as [|c s IH]; [auto|]. cbn [rstrip].
  destruct (isspace c && String.eqb (rstrip s) "") eqn:E.
  - cbn [contains]. rewrite orb_false_r. intros H.
    destruct sep; [|discriminate]. by rewrite startswith_nil.
  - cbn [contains]. intros H. apply orb_true_iff in H as [H|H].
    + assert (Hs : startswith sep (rstrip (String c s)) = true)
        by (cbn [rstrip]; by rewrite E).
      apply startswith_rstrip in Hs. by rewrite Hs.
    + rewrite (IH H). apply orb_true_r.
Qed.

Lemma contains_strip sep s :
  contains sep (strip s) = true -> contains sep s = true.
Proof. intros H. by apply contains_lstrip, contains_rstrip. Qed.

End Names.

(** X17: for the details that discovery stores, the sensors of a location
    are named after the stored apartment designator, and "Unknown" when the
    label has no ", ap. ": the second attempt, which splits the stored
    name, never finds a designator. *)
Theorem sensor_name_of_discovered_location loc_id label a p h c :
  Sensor.location_name
    {| info := Some (with_association a (location_entry loc_id label));
       pending_payments := p; payment_history := h; counters := c |} =
  match spec_designator label with
  | Some d => d
  | None => "Unknown"
  end.
Proof.
  unfold Sensor.location_name. cbn [info].
  assert (Ha : apartment (with_association a (location_entry loc_id label))
               = apartment (location_entry loc_id label))
    by (destruct a; reflexivity).
  assert (Hn : name (with_association a (location_entry loc_id label))
               = strip label).
  { destruct a; unfold location_entry;
      destruct (contains ", ap. " label); reflexivity. }
  rewrite Ha, Hn. unfold location_entry, spec_designator.
  rewrite contains_after_first.
  destruct (spec_after_first ", ap. " label) as [r|] eqn:Hr; cbn [apartment].
  - apply (designator_spec _ _ Hr).
  - assert (Hc : contains ", ap. " (strip label) = false).
    { destruct (contains ", ap. " (strip label)) eqn:E; [|reflexivity].
      apply contains_strip in E. rewrite contains_after_first, Hr in E.
      discriminate. }
    rewrite (split_without_separator _ _ Hc). reflexivity.
Qed.
